(** * appneural-cli-setup: the setup service, embedded and verified

    A shallow embedding of [services/setup.service.ts] (role setup and the
    local-environment provisioner) together with the properties its
    specification states about it.

    Conventions of the embedding.
    - Values inhabit their declared TypeScript types: an optional field
      [f?: T] is an [option T], a [Record<string, unknown>] is a
      [gmap string json], and an [as] cast is the projection onto the
      declared type.
    - Strings are byte strings; on ASCII text they coincide with the
      UTF-16 strings of the JavaScript runtime.
    - Everything outside the process (sub-processes, HTTP, the clock, the
      entropy pool, the platform's line terminator) is a [Host]: a family
      of oracles indexed by a logical time, the number of effects that
      were performed before the call.  Sub-processes are observed through
      their exit status only.
    - The file system is the structured record [Files]; paths are the
      symbolic [Path]s the service builds, and template and snippet keys
      are opaque names (no path normalisation).
    - Every effect is appended to the [trace] of the [World], so that
      "is not read", "is not written" and "runs afterwards" are
      statements about traces. *)

From Stdlib Require Import ZArith NArith Ascii String List Lia.
From stdpp Require Import gmap strings list fin_maps pretty.

Local Open Scope string_scope.

(** ** JSON values (the [unknown] of role configuration) *)

#[local] Set Warnings "-register-all".


Inductive json : Type :=
| JNull
| JBool (b : bool)
| JNum (n : Z)
| JStr (s : string)
| JArr (xs : list json)
| JObj (kvs : list (string * json)).

(** [v as string[] | undefined], read by [??]: [null] is nullish, an array
    of strings is itself. *)
Definition as_string (v : json) : option string :=
  match v with JStr s => Some s | _ => None end.

Fixpoint as_strings (xs : list json) : option (list string) :=
  match xs with
  | [] => Some []
  | x :: xs' =>
      match as_string x, as_strings xs' with
      | Some s, Some ss => Some (s :: ss)
      | _, _ => None
      end
  end.

Definition as_string_array (v : json) : option (list string) :=
  match v with JArr xs => as_strings xs | _ => None end.

(** ** JavaScript objects used as maps *)

Module Js.

(** The own property names of [Object.prototype]; every object literal
    and every object built by a parser inherits them. *)
Definition OBJECT_PROTOTYPE_KEYS : list string :=
  [ "constructor"; "__defineGetter__"; "__defineSetter__"; "hasOwnProperty";
    "__lookupGetter__"; "__lookupSetter__"; "isPrototypeOf";
    "propertyIsEnumerable"; "toString"; "valueOf"; "__proto__";
    "toLocaleString" ].

Definition on_prototype (k : string) : bool :=
  existsb (String.eqb k) OBJECT_PROTOTYPE_KEYS.

(** The value of [o[k]]: an own property, a member found on the
    prototype chain, or [undefined]. *)
Inductive Property (A : Type) : Type :=
| Own (a : A)
| Inherited (k : string)
| Undefined.
Arguments Own {A} a.
Arguments Inherited {A} k.
Arguments Undefined {A}.

Definition get {A} (o : gmap string A) (k : string) : Property A :=
  match o !! k with
  | Some a => Own a
  | None => if on_prototype k then Inherited k else Undefined
  end.

(** [Object.keys(o).length === 0] *)
Definition no_keys {A} (o : gmap string A) : bool :=
  bool_decide (o = ∅).

(** [a ?? b] on an optional value. *)
Definition nullish {A} (a : option A) (b : A) : A :=
  match a with Some x => x | None => b end.

(** [{ ...a, ...b }]: the keys of both, [b] winning on conflicts. *)
Definition spread {A} (a b : gmap string A) : gmap string A := b ∪ a.

End Js.

Infix "??" := Js.nullish (at level 45, left associativity).

(** ** Data model *)

Module RoleShortcut.
Record t : Type := mk
  { name : string; command : string; description : option string }.
End RoleShortcut.

Module RoleDefinition.
Record t : Type := mk
  { description : option string;
    shortcuts : option (list RoleShortcut.t);
    templates : option (list string);
    snippets : option (list string);
    instructions : option (list string);
    config : option (gmap string json) }.

(** What a member of [Object.prototype] looks like through the
    [RoleDefinition] interface: none of the fields is defined on it. *)
Definition prototype_member : t := mk None None None None None None.
End RoleDefinition.

Module HistoryEntry.
Record t : Type := mk { role : string; appliedAt : string }.
End HistoryEntry.

Module AppneuralConfig.
Record t : Type := mk
  { role : option string;
    shortcuts : option (list RoleShortcut.t);
    instructions : option (list string);
    templates : option (list string);
    snippets : option (list string);
    settings : option (gmap string json);
    healthChecks : option (list string);
    history : option (list HistoryEntry.t);
    updatedAt : option string }.

(** [{}] *)
Definition empty : t := mk None None None None None None None None None.
End AppneuralConfig.

Module RoleSetupResult.
Record t : Type := mk
  { role : string;
    shortcuts : list RoleShortcut.t;
    templates : list string;
    snippets : list string;
    instructions : list string }.
End RoleSetupResult.

Inductive PackageManager : Type := pnpm | yarn | npm.

Inductive DockerComposeCommand : Type := docker | docker_compose.

Module HealthCheck.
Record t : Type := mk
  { url : string; healthy : bool; status : option Z }.
End HealthCheck.

Module LocalSetupResult.
Record t : Type := mk
  { packageManager : PackageManager;
    envGenerated : bool;
    dockerServices : list string;
    migrationsExecuted : bool;
    seedersExecuted : bool;
    healthChecks : list HealthCheck.t }.
End LocalSetupResult.

Abbreviation RoleManifest := (gmap string RoleDefinition.t).

(** The content of [appneural.roles.yaml] as [YAML.parse] sees it: text
    that does not parse, or a document with an optional [roles] mapping
    (an empty document has none). *)
Inductive RolesYaml : Type :=
| Malformed
| Document (roles : option RoleManifest).

(** ** Constants *)

Definition DEFAULT_HEALTH_ENDPOINTS : list string :=
  [ "http://localhost:3000/health";
    "http://localhost:4000/health";
    "http://localhost:8080/ready" ].

Definition shortcut (n c d : string) : RoleShortcut.t :=
  RoleShortcut.mk n c (Some d).

Definition health_endpoints_json : json :=
  JArr (map JStr DEFAULT_HEALTH_ENDPOINTS).

Definition backend_dev : RoleDefinition.t :=
  RoleDefinition.mk
    (Some "APPNEURAL backend focused engineer stack")
    (Some [ shortcut "svc" "appneural microservice create" "Scaffold Nest microservice";
            shortcut "repo" "appneural repo create" "Create GitHub repository" ])
    (Some [ "nest-service/basic"; "dto-crud/basic"; "rest-api-module/core" ])
    (Some [ "database-connection" ])
    (Some [ "Use APPNEURAL microservice generator for each bounded context";
            "Follow the DTO CRUD template to keep transports consistent" ])
    (Some {[ "stack" := JStr "nest"; "healthChecks" := health_endpoints_json ]}).

Definition frontend_dev : RoleDefinition.t :=
  RoleDefinition.mk
    (Some "APPNEURAL frontend experience")
    (Some [ shortcut "ui" "appneural ui add" "Add UI component";
            shortcut "page" "appneural generate react-page/dashboard" "Generate React page" ])
    (Some [ "react-page/dashboard" ])
    (Some [ "apollo-client" ])
    (Some [ "Leverage APPNEURAL UI kit for consistent look";
            "Use the page generator for dashboards" ])
    (Some {[ "stack" := JStr "react" ]}).

Definition mobile_dev : RoleDefinition.t :=
  RoleDefinition.mk
    (Some "APPNEURAL mobile stack")
    (Some [ shortcut "rn" "appneural new react-native-app" "Create RN app";
            shortcut "sdk" "appneural sdk generate mobile" "Generate mobile SDK" ])
    (Some [ "react-page/mobile" ])
    (Some [ "mobile-storage" ])
    (Some [ "Use APPNEURAL Blueprint generator for RN apps";
            "Sync native modules through SDK command" ])
    (Some {[ "stack" := JStr "react-native" ]}).

Definition fullstack_dev : RoleDefinition.t :=
  RoleDefinition.mk
    (Some "APPNEURAL fullstack role")
    (Some [ shortcut "fullstack" "appneural new webapp" "Create webapp";
            shortcut "svc" "appneural new nest-microservice" "Create Nest service" ])
    (Some [ "nest-service/basic"; "react-page/dashboard" ])
    (Some [ "fullstack-testing" ])
    (Some [ "Generate paired backend/frontend modules";
            "Adopt shared DTO patterns" ])
    (Some {[ "stack" := JStr "fullstack" ]}).

Definition devops : RoleDefinition.t :=
  RoleDefinition.mk
    (Some "APPNEURAL DevOps automation")
    (Some [ shortcut "cloud" "appneural cloud init --provider aws" "Init infra";
            shortcut "plan" "appneural cloud plan dev" "Plan dev env" ])
    (Some [ "microservice-basic/base" ])
    (Some [ "cicd-pipeline" ])
    (Some [ "Keep infra modules in sync across envs";
            "Use the quality suite before shipping" ])
    (Some {[ "stack" := JStr "devops"; "healthChecks" := health_endpoints_json ]}).

Definition DEFAULT_ROLES_LIST : list (string * RoleDefinition.t) :=
  [ ("backend-dev", backend_dev);
    ("frontend-dev", frontend_dev);
    ("mobile-dev", mobile_dev);
    ("fullstack-dev", fullstack_dev);
    ("devops", devops) ].

Definition DEFAULT_ROLES : RoleManifest := list_to_map DEFAULT_ROLES_LIST.

Module Tool.
Record t : Type := mk
  { name : string; args : option (list string); required : bool }.
End Tool.

Definition REQUIRED_TOOLS : list Tool.t :=
  [ Tool.mk "node" (Some ["--version"]) true;
    Tool.mk "npm" (Some ["--version"]) true;
    Tool.mk "pnpm" (Some ["--version"]) false;
    Tool.mk "yarn" (Some ["--version"]) false;
    Tool.mk "docker" (Some ["--version"]) true ].

(** ** The world: files, host, trace *)

(** The paths the service builds with [path.join]. *)
Inductive Path : Type :=
| ROLES_FILE
| CONFIG_FILE
| ENV_EXAMPLE
| ENV_FILE
| PNPM_LOCK
| YARN_LOCK
| INTERNAL_TEMPLATE (templateKey : string)
| INTERNAL_SNIPPET (snippetKey : string)
| GLOBAL_TEMPLATE_ROOT
| GLOBAL_SNIPPET_ROOT
| GLOBAL_TEMPLATE (role templateKey : string)
| GLOBAL_SNIPPET (snippetKey : string).

Inductive Stdio : Type := pipe | inherit.

(** What [fetch] settles to: a response, or a rejection (transport error,
    invalid URL, or the abort fired by the timer). *)
Inductive FetchOutcome : Type :=
| Responded (status : Z)
| Rejected.

(** [response.ok] *)
Definition response_ok (status : Z) : bool :=
  (200 <=? status)%Z && (status <=? 299)%Z.

Inductive LogLevel : Type := info | warn.

Inductive Event : Type :=
| EPathExists (p : Path)
| EReadFile (p : Path)
| EWriteFile (p : Path)
| EEnsureDir (p : Path)
| ECopyDirectory (source destination : Path)
| ECopyFile (source destination : Path)
| EExeca (command : string) (args : list string) (stdio : Stdio) (exit0 : bool)
| EFetch (url : string) (timeoutMs : Z) (outcome : FetchOutcome)
| EDateNow (iso : string)
| ERandomBytes (n : nat)
| ELogger (level : LogLevel) (message : string).

Record Host : Type :=
  { execa_exit0 : nat -> string -> list string -> bool;
    fetch_outcome : nat -> string -> Z -> FetchOutcome;
    random_byte : nat -> nat -> Byte.byte;
    date_iso : nat -> string;
    EOL : string }.

(** The content of a template directory, opaque to the service. *)
Definition Tree : Type := string.

Record Files : Type :=
  { roles_yaml : option RolesYaml;
    config_json : option AppneuralConfig.t;
    env_example : option string;
    dot_env : option string;
    pnpm_lock : bool;
    yarn_lock : bool;
    internal_templates : gmap string Tree;
    internal_snippets : gmap string string;
    global_template_root : bool;
    global_snippet_root : bool;
    global_templates : gmap (string * string) Tree;
    global_snippets : gmap string string }.

Record World : Type := { files : Files; trace : list Event }.

Definition path_exists (f : Files) (p : Path) : bool :=
  match p with
  | ROLES_FILE => bool_decide (is_Some (roles_yaml f))
  | CONFIG_FILE => bool_decide (is_Some (config_json f))
  | ENV_EXAMPLE => bool_decide (is_Some (env_example f))
  | ENV_FILE => bool_decide (is_Some (dot_env f))
  | PNPM_LOCK => pnpm_lock f
  | YARN_LOCK => yarn_lock f
  | INTERNAL_TEMPLATE k => bool_decide (is_Some (internal_templates f !! k))
  | INTERNAL_SNIPPET k => bool_decide (is_Some (internal_snippets f !! k))
  | GLOBAL_TEMPLATE_ROOT => global_template_root f
  | GLOBAL_SNIPPET_ROOT => global_snippet_root f
  | GLOBAL_TEMPLATE r k => bool_decide (is_Some (global_templates f !! (r, k)))
  | GLOBAL_SNIPPET k => bool_decide (is_Some (global_snippets f !! k))
  end.

Definition with_config_json (c : AppneuralConfig.t) (f : Files) : Files :=
  {| roles_yaml := roles_yaml f; config_json := Some c;
     env_example := env_example f; dot_env := dot_env f;
     pnpm_lock := pnpm_lock f; yarn_lock := yarn_lock f;
     internal_templates := internal_templates f;
     internal_snippets := internal_snippets f;
     global_template_root := global_template_root f;
     global_snippet_root := global_snippet_root f;
     global_templates := global_templates f;
     global_snippets := global_snippets f |}.

Definition with_dot_env (s : string) (f : Files) : Files :=
  {| roles_yaml := roles_yaml f; config_json := config_json f;
     env_example := env_example f; dot_env := Some s;
     pnpm_lock := pnpm_lock f; yarn_lock := yarn_lock f;
     internal_templates := internal_templates f;
     internal_snippets := internal_snippets f;
     global_template_root := global_template_root f;
     global_snippet_root := global_snippet_root f;
     global_templates := global_templates f;
     global_snippets := global_snippets f |}.

Definition with_global_roots (t s : bool) (f : Files) : Files :=
  {| roles_yaml := roles_yaml f; config_json := config_json f;
     env_example := env_example f; dot_env := dot_env f;
     pnpm_lock := pnpm_lock f; yarn_lock := yarn_lock f;
     internal_templates := internal_templates f;
     internal_snippets := internal_snippets f;
     global_template_root := t;
     global_snippet_root := s;
     global_templates := global_templates f;
     global_snippets := global_snippets f |}.

Definition with_global_templates (g : gmap (string * string) Tree) (f : Files) : Files :=
  {| roles_yaml := roles_yaml f; config_json := config_json f;
     env_example := env_example f; dot_env := dot_env f;
     pnpm_lock := pnpm_lock f; yarn_lock := yarn_lock f;
     internal_templates := internal_templates f;
     internal_snippets := internal_snippets f;
     global_template_root := global_template_root f;
     global_snippet_root := global_snippet_root f;
     global_templates := g;
     global_snippets := global_snippets f |}.

Definition with_global_snippets (g : gmap string string) (f : Files) : Files :=
  {| roles_yaml := roles_yaml f; config_json := config_json f;
     env_example := env_example f; dot_env := dot_env f;
     pnpm_lock := pnpm_lock f; yarn_lock := yarn_lock f;
     internal_templates := internal_templates f;
     internal_snippets := internal_snippets f;
     global_template_root := global_template_root f;
     global_snippet_root := global_snippet_root f;
     global_templates := global_templates f;
     global_snippets := g |}.

(** ** The effect monad: state that survives an exception *)

Inductive Error : Type :=
| ValidationError (message : string) (context : list (string * string))
| AppneuralError (message : string)
| ExecaError (command : string) (args : list string)
| YamlParseError
| FetchError (url : string)
| ENOENT (p : Path).

Inductive Result (A : Type) : Type :=
| Ok (a : A)
| Throw (e : Error).
Arguments Ok {A} a.
Arguments Throw {A} e.

Definition M (A : Type) : Type := World -> Result A * World.

Definition ret {A} (a : A) : M A := fun w => (Ok a, w).

Definition bind {A B} (m : M A) (k : A -> M B) : M B :=
  fun w =>
    match m w with
    | (Ok a, w') => k a w'
    | (Throw e, w') => (Throw e, w')
    end.

Definition throw {A} (e : Error) : M A := fun w => (Throw e, w).

(** [try { m } catch (_error) { h }] *)
Definition try_catch {A} (m : M A) (h : M A) : M A :=
  fun w =>
    match m w with
    | (Ok a, w') => (Ok a, w')
    | (Throw _, w') => h w'
    end.

Notation "'do' x <- m ; k" := (bind m (fun x => k))
  (at level 10, x name, m at level 100, k at level 200,
   format "'[v' 'do'  x  <-  m ; '/' k ']'").
Notation "'run' m ; k" := (bind m (fun _ => k))
  (at level 10, m at level 100, k at level 200,
   format "'[v' 'run'  m ; '/' k ']'").

(** [for (const x of xs) { await f(x); }] *)
Fixpoint for_of {A} (xs : list A) (f : A -> M unit) : M unit :=
  match xs with
  | [] => ret tt
  | x :: xs' => run f x; for_of xs' f
  end.

Definition emit (e : Event) : M unit :=
  fun w => (Ok tt, {| files := files w; trace := trace w ++ [e] |}).

(** The logical time of the next effect. *)
Definition tick : M nat := fun w => (Ok (List.length (trace w)), w).

Definition get_files : M Files := fun w => (Ok (files w), w).

Definition modify_files (g : Files -> Files) : M unit :=
  fun w => (Ok tt, {| files := g (files w); trace := trace w |}).

(** ** Primitives of the runtime and of [@appneural/cli-shared] *)

Definition pathExists (p : Path) : M bool :=
  run emit (EPathExists p);
  do f <- get_files;
  ret (path_exists f p).

(** [ensureDir]: only the two global roots are ever ensured. *)
Definition ensureDir (p : Path) : M unit :=
  run emit (EEnsureDir p);
  modify_files (fun f =>
    match p with
    | GLOBAL_TEMPLATE_ROOT => with_global_roots true (global_snippet_root f) f
    | GLOBAL_SNIPPET_ROOT => with_global_roots (global_template_root f) true f
    | _ => f
    end).

Definition logger (level : LogLevel) (message : string) : M unit :=
  emit (ELogger level message).

(** [new Date().toISOString()] *)
Definition now_iso (h : Host) : M string :=
  do t <- tick;
  run emit (EDateNow (date_iso h t));
  ret (date_iso h t).

(** [await execa(command, args, { stdio })]: rejects on a non-zero exit. *)
Definition execa (h : Host) (command : string) (args : list string)
    (stdio : Stdio) : M unit :=
  do t <- tick;
  let exit0 := execa_exit0 h t command args in
  run emit (EExeca command args stdio exit0);
  if exit0 then ret tt else throw (ExecaError command args).

(** ** Persisted configuration and role manifest *)

Definition readAppneuralConfig : M AppneuralConfig.t :=
  do present <- pathExists CONFIG_FILE;
  if negb present then ret AppneuralConfig.empty
  else
    run emit (EReadFile CONFIG_FILE);
    do f <- get_files;
    match config_json f with
    | Some c => ret c
    | None => throw (ENOENT CONFIG_FILE)
    end.

Definition writeAppneuralConfig (config : AppneuralConfig.t) : M unit :=
  run emit (EWriteFile CONFIG_FILE);
  modify_files (with_config_json config).

Definition loadRolesManifest : M RoleManifest :=
  do present <- pathExists ROLES_FILE;
  if negb present then ret DEFAULT_ROLES
  else
    run emit (EReadFile ROLES_FILE);
    do f <- get_files;
    match roles_yaml f with
    | None => throw (ENOENT ROLES_FILE)
    | Some Malformed => throw YamlParseError
    | Some (Document None) => ret DEFAULT_ROLES
    | Some (Document (Some roles)) =>
        if Js.no_keys roles then ret DEFAULT_ROLES else ret roles
    end.

Definition copyTemplateToGlobal (role templateKey : string) : M unit :=
  let source := INTERNAL_TEMPLATE templateKey in
  do present <- pathExists source;
  if negb present then
    throw (ValidationError "APPNEURAL role template missing"
             [("templateKey", templateKey)])
  else
    let destination := GLOBAL_TEMPLATE role templateKey in
    run emit (ECopyDirectory source destination);
    modify_files (fun f =>
      match internal_templates f !! templateKey with
      | Some tree =>
          with_global_templates (<[(role, templateKey) := tree]> (global_templates f)) f
      | None => f
      end).

Definition copySnippetToGlobal (snippetKey : string) : M unit :=
  let source := INTERNAL_SNIPPET snippetKey in
  do present <- pathExists source;
  if negb present then
    throw (ValidationError "APPNEURAL snippet missing"
             [("snippetKey", snippetKey)])
  else
    let destination := GLOBAL_SNIPPET snippetKey in
    run ensureDir GLOBAL_SNIPPET_ROOT;
    run emit (ECopyFile source destination);
    modify_files (fun f =>
      match internal_snippets f !! snippetKey with
      | Some text =>
          with_global_snippets (<[snippetKey := text]> (global_snippets f)) f
      | None => f
      end).

(** ** Role setup *)

(** [xs.forEach((x, index) => f(x, index))], from index [i] on. *)
Fixpoint forEach_from {A} (i : nat) (xs : list A) (f : A -> nat -> M unit) : M unit :=
  match xs with
  | [] => ret tt
  | x :: xs' => run f x i; forEach_from (S i) xs' f
  end.

Definition forEach {A} (xs : list A) (f : A -> nat -> M unit) : M unit :=
  forEach_from 0 xs f.

Definition instruction_line (instruction : string) (index : nat) : string :=
  "APPNEURAL role instruction " +:+ pretty (index + 1)%nat +:+ ": " +:+ instruction.

Definition shortcut_line (s : RoleShortcut.t) : string :=
  "APPNEURAL shortcut '" +:+ RoleShortcut.name s +:+ "' => " +:+ RoleShortcut.command s
  +:+ match RoleShortcut.description s with
      | Some d => if String.eqb d EmptyString then EmptyString else " (" +:+ d +:+ ")"
      | None => EmptyString
      end.

(** [definition.config?.healthChecks as string[] | undefined] *)
Definition config_healthChecks (definition : RoleDefinition.t) : option (list string) :=
  match RoleDefinition.config definition with
  | Some c =>
      match c !! "healthChecks" with
      | Some v => as_string_array v
      | None => None
      end
  | None => None
  end.

(** [manifest[role]], as seen through the [RoleDefinition] interface;
    [None] is a falsy value. *)
Definition manifest_get (manifest : RoleManifest) (role : string)
    : option RoleDefinition.t :=
  match Js.get manifest role with
  | Js.Own d => Some d
  | Js.Inherited _ => Some RoleDefinition.prototype_member
  | Js.Undefined => None
  end.

Definition applyRoleSetup (h : Host) (role : string) : M RoleSetupResult.t :=
  do manifest <- loadRolesManifest;
  match manifest_get manifest role with
  | None => throw (ValidationError "APPNEURAL role not found" [("role", role)])
  | Some definition =>
      run ensureDir GLOBAL_TEMPLATE_ROOT;
      run ensureDir GLOBAL_SNIPPET_ROOT;
      run for_of (RoleDefinition.templates definition ?? [])
            (copyTemplateToGlobal role);
      run for_of (RoleDefinition.snippets definition ?? [])
            copySnippetToGlobal;
      do currentConfig <- readAppneuralConfig;
      do appliedAt <- now_iso h;
      let updatedHistory :=
        ((AppneuralConfig.history currentConfig ?? []) ++ [HistoryEntry.mk role appliedAt])%list in
      do updatedAt <- now_iso h;
      let nextConfig :=
        AppneuralConfig.mk
          (Some role)
          (Some (RoleDefinition.shortcuts definition ?? []))
          (Some (RoleDefinition.instructions definition ?? []))
          (Some (RoleDefinition.templates definition ?? []))
          (Some (RoleDefinition.snippets definition ?? []))
          (Some (Js.spread (AppneuralConfig.settings currentConfig ?? ∅)
                           (RoleDefinition.config definition ?? ∅)))
          (match config_healthChecks definition with
           | Some urls => Some urls
           | None => AppneuralConfig.healthChecks currentConfig
           end)
          (Some updatedHistory)
          (Some updatedAt) in
      run writeAppneuralConfig nextConfig;
      run forEach (RoleDefinition.instructions definition ?? [])
            (fun instruction index => logger info (instruction_line instruction index));
      run forEach (RoleDefinition.shortcuts definition ?? [])
            (fun s _ => logger info (shortcut_line s));
      ret (RoleSetupResult.mk role
             (RoleDefinition.shortcuts definition ?? [])
             (RoleDefinition.templates definition ?? [])
             (RoleDefinition.snippets definition ?? [])
             (RoleDefinition.instructions definition ?? []))
  end.

(** ** Strings and ordered objects, as [parseEnv] and [serializeEnv] use them *)

Module JsString.

Definition LF : ascii := "010"%char.
Definition CR : ascii := "013"%char.

(** [s.split(/\r?\n/)] *)
Fixpoint split_lines (s : string) : list string :=
  match s with
  | EmptyString => [EmptyString]
  | String c rest =>
      let keep :=
        match split_lines rest with
        | l :: ls => String c l :: ls
        | [] => [String c EmptyString]
        end in
      if Ascii.eqb c LF then EmptyString :: split_lines rest
      else if Ascii.eqb c CR then
        match rest with
        | String d rest' =>
            if Ascii.eqb d LF then EmptyString :: split_lines rest' else keep
        | EmptyString => keep
        end
      else keep
  end.

(** [s.split(sep)] for a one-character separator. *)
Fixpoint split_on (sep : ascii) (s : string) : list string :=
  match s with
  | EmptyString => [EmptyString]
  | String c rest =>
      if Ascii.eqb c sep then EmptyString :: split_on sep rest
      else
        match split_on sep rest with
        | l :: ls => String c l :: ls
        | [] => [String c EmptyString]
        end
  end.

(** [xs.join(sep)] *)
Fixpoint join (sep : string) (xs : list string) : string :=
  match xs with
  | [] => EmptyString
  | [x] => x
  | x :: xs' => x +:+ sep +:+ join sep xs'
  end.

(** White space and line terminators below U+0080. *)
Definition is_space (c : ascii) : bool :=
  let n := nat_of_ascii c in
  (Nat.leb 9 n && Nat.leb n 13) || Nat.eqb n 32.

Fixpoint trim_start (s : string) : string :=
  match s with
  | String c rest => if is_space c then trim_start rest else s
  | EmptyString => EmptyString
  end.

Fixpoint trim_end (s : string) : string :=
  match s with
  | EmptyString => EmptyString
  | String c rest =>
      match trim_end rest with
      | EmptyString => if is_space c then EmptyString else String c EmptyString
      | rest' => String c rest'
      end
  end.

(** [s.trim()] *)
Definition trim (s : string) : string := trim_end (trim_start s).

(** [s.startsWith(p)] for a one-character prefix. *)
Definition starts_with (p : ascii) (s : string) : bool :=
  match s with
  | String c _ => Ascii.eqb c p
  | EmptyString => false
  end.

(** A non-empty string is truthy. *)
Definition truthy (s : string) : bool :=
  match s with EmptyString => false | _ => true end.

Definition is_digit (c : ascii) : bool :=
  let n := nat_of_ascii c in Nat.leb 48 n && Nat.leb n 57.

Fixpoint digits_value (acc : N) (s : string) : option N :=
  match s with
  | EmptyString => Some acc
  | String c rest =>
      if is_digit c
      then digits_value (acc * 10 + (N_of_ascii c - 48))%N rest
      else None
  end.

(** The array index a property name denotes, if it is one: a canonical
    decimal numeral below 2^32 - 1. *)
Definition array_index (k : string) : option N :=
  match k with
  | EmptyString => None
  | String c rest =>
      if Ascii.eqb c "0"%char && truthy rest then None
      else
        match digits_value 0%N k with
        | Some n => if (n <? 4294967295)%N then Some n else None
        | None => None
        end
  end.

Definition HASH : ascii := "#"%char.
Definition EQUALS : ascii := "="%char.

End JsString.

(** An object whose property order is observable: own string-keyed
    properties in insertion order. *)
Module JsObject.

Definition t : Type := list (string * string).

(** [o[k] = v].  Assigning a string to [__proto__] runs the inherited
    setter, which ignores it: no own property appears. *)
Fixpoint put (k v : string) (o : t) : t :=
  match o with
  | [] => [(k, v)]
  | (k', v') :: o' =>
      if String.eqb k' k then (k, v) :: o' else (k', v') :: put k v o'
  end.

Definition set (o : t) (k v : string) : t :=
  if String.eqb k "__proto__" then o else put k v o.

Fixpoint insert_index (e : N * (string * string))
    (es : list (N * (string * string))) : list (N * (string * string)) :=
  match es with
  | [] => [e]
  | e' :: es' =>
      if (fst e <=? fst e')%N then e :: es else e' :: insert_index e es'
  end.

Definition index_entries (o : t) : list (N * (string * string)) :=
  fold_right
    (fun kv acc =>
       match JsString.array_index (fst kv) with
       | Some n => insert_index (n, kv) acc
       | None => acc
       end) [] o.

Definition name_entries (o : t) : list (string * string) :=
  List.filter
    (fun kv => match JsString.array_index (fst kv) with
               | Some _ => false | None => true end) o.

(** [Object.entries(o)]: array indices in ascending order, then the
    other names in insertion order. *)
Definition entries (o : t) : list (string * string) :=
  (map snd (index_entries o) ++ name_entries o)%list.

End JsObject.

(** ** [.env] generation *)

Definition parseEnv (content : string) : JsObject.t :=
  fold_left
    (fun result line =>
       match JsString.split_on JsString.EQUALS line with
       | key :: rest =>
           JsObject.set result key (JsString.join "=" rest)
       | [] => result
       end)
    (List.filter
       (fun line => JsString.truthy line
                    && negb (JsString.starts_with JsString.HASH line))
       (map JsString.trim (JsString.split_lines content)))
    [].

Definition serializeEnv (eol : string) (env : JsObject.t) : string :=
  JsString.join eol
    (map (fun kv => fst kv +:+ "=" +:+ snd kv) (JsObject.entries env)).

Definition hex_digit (n : N) : ascii :=
  match n with
  | 0 => "0" | 1 => "1" | 2 => "2" | 3 => "3" | 4 => "4" | 5 => "5"
  | 6 => "6" | 7 => "7" | 8 => "8" | 9 => "9" | 10 => "a" | 11 => "b"
  | 12 => "c" | 13 => "d" | 14 => "e" | _ => "f"
  end%N%char.

(** [buffer.toString("hex")] *)
Fixpoint to_hex (bytes : list Byte.byte) : string :=
  match bytes with
  | [] => EmptyString
  | b :: bs =>
      let n := Byte.to_N b in
      String (hex_digit (n / 16)%N) (String (hex_digit (n mod 16)%N) (to_hex bs))
  end.

(** [crypto.randomBytes(n)] *)
Definition randomBytes (h : Host) (n : nat) : M (list Byte.byte) :=
  do t <- tick;
  run emit (ERandomBytes n);
  ret (map (random_byte h t) (seq 0 n)).

(** [s.slice(0, n)] *)
Definition slice0 (n : nat) (s : string) : string := String.substring 0 n s.

Definition createSecret (h : Host) (length : nat) : M string :=
  do bytes <- randomBytes h length;
  ret (slice0 (length * 2) (to_hex bytes)).

Definition generateEnvFile (h : Host) : M bool :=
  do present <- pathExists ENV_EXAMPLE;
  if negb present then ret false
  else
    run emit (EReadFile ENV_EXAMPLE);
    do f <- get_files;
    match env_example f with
    | None => throw (ENOENT ENV_EXAMPLE)
    | Some example =>
        let parsed := parseEnv example in
        do jwt <- createSecret h 32;
        let parsed := JsObject.set parsed "JWT_SECRET" jwt in
        do key <- createSecret h 32;
        let parsed := JsObject.set parsed "ENCRYPTION_KEY" key in
        run emit (EWriteFile ENV_FILE);
        run modify_files (with_dot_env (serializeEnv (EOL h) parsed));
        ret true
    end.

(** ** Local environment setup *)

Definition isCommandAvailable (h : Host) (command : string)
    (args : option (list string)) : M bool :=
  try_catch
    (run execa h command (args ?? ["--version"]) pipe; ret true)
    (ret false).

Definition verifyDockerCompose (h : Host) : M DockerComposeCommand :=
  try_catch
    (run execa h "docker" ["compose"; "version"] pipe; ret docker)
    (run execa h "docker-compose" ["--version"] pipe; ret docker_compose).

Definition detectPackageManager (h : Host) : M PackageManager :=
  do pnpmLock <- pathExists PNPM_LOCK;
  if pnpmLock then
    do available <- isCommandAvailable h "pnpm" None;
    ret (if available then pnpm else npm)
  else
    do yarnLock <- pathExists YARN_LOCK;
    if yarnLock then
      do available <- isCommandAvailable h "yarn" None;
      ret (if available then yarn else npm)
    else ret npm.

Definition installDependencies (h : Host) (manager : PackageManager) : M unit :=
  match manager with
  | pnpm => execa h "pnpm" ["install"] inherit
  | yarn => execa h "yarn" ["install"] inherit
  | npm => execa h "npm" ["install"] inherit
  end.

Definition runScriptIfPresent (h : Host) (manager : PackageManager)
    (script : string) : M bool :=
  try_catch
    (match manager with
     | pnpm => run execa h "pnpm" ["run"; script; "--if-present"] inherit; ret true
     | yarn => run execa h "yarn" ["run"; script] inherit; ret true
     | npm => run execa h "npm" ["run"; script; "--if-present"] inherit; ret true
     end)
    (run logger warn ("APPNEURAL script '" +:+ script +:+ "' not available");
     ret false).

Definition compose_program (c : DockerComposeCommand) : string :=
  match c with docker => "docker" | docker_compose => "docker-compose" end.

Definition startDockerServices (h : Host) (composeCommand : DockerComposeCommand)
    : M (list string) :=
  let args :=
    match composeCommand with
    | docker => ["compose"; "up"; "-d"; "db"; "redis"; "mq"]
    | docker_compose => ["up"; "-d"; "db"; "redis"; "mq"]
    end in
  run execa h (compose_program composeCommand) args inherit;
  ret ["db"; "redis"; "mq"].

Definition HEALTH_TIMEOUT_MS : Z := 4000.

(** [await fetch(url, { signal })] with the abort timer armed: the status
    of the response, or an exception when the promise rejects. *)
Definition fetch (h : Host) (url : string) (timeoutMs : Z) : M Z :=
  do t <- tick;
  let outcome := fetch_outcome h t url timeoutMs in
  run emit (EFetch url timeoutMs outcome);
  match outcome with
  | Responded status => ret status
  | Rejected => throw (FetchError url)
  end.

(** One turn of the loop of [performHealthChecks]: the entry pushed for
    [url]. *)
Definition probe (h : Host) (url : string) : M HealthCheck.t :=
  try_catch
    (do status <- fetch h url HEALTH_TIMEOUT_MS;
     ret (HealthCheck.mk url (response_ok status) (Some status)))
    (ret (HealthCheck.mk url false None)).

Fixpoint probe_all (h : Host) (endpoints : list string) : M (list HealthCheck.t) :=
  match endpoints with
  | [] => ret []
  | url :: rest =>
      do r <- probe h url;
      do rs <- probe_all h rest;
      ret (r :: rs)
  end.

(** [config.healthChecks?.length ? config.healthChecks : DEFAULT_HEALTH_ENDPOINTS] *)
Definition health_endpoints (config : AppneuralConfig.t) : list string :=
  match AppneuralConfig.healthChecks config with
  | Some (u :: us) => u :: us
  | _ => DEFAULT_HEALTH_ENDPOINTS
  end.

Definition performHealthChecks (h : Host) : M (list HealthCheck.t) :=
  do config <- readAppneuralConfig;
  probe_all h (health_endpoints config).

Definition verify_tool (h : Host) (tool : Tool.t) : M unit :=
  do available <- isCommandAvailable h (Tool.name tool) (Tool.args tool);
  if negb available && Tool.required tool then
    throw (AppneuralError
             ("APPNEURAL requires " +:+ Tool.name tool +:+ " to be installed"))
  else if negb available then
    logger warn ("APPNEURAL optional tool missing: " +:+ Tool.name tool)
  else ret tt.

Definition runLocalEnvironmentSetup (h : Host) : M LocalSetupResult.t :=
  run for_of REQUIRED_TOOLS (verify_tool h);
  do composeExecutor <- verifyDockerCompose h;
  do manager <- detectPackageManager h;
  run installDependencies h manager;
  do envCreated <- generateEnvFile h;
  do services <- startDockerServices h composeExecutor;
  do migrationsExecuted <- runScriptIfPresent h manager "migrate";
  do seedersExecuted <- runScriptIfPresent h manager "seed";
  do healthChecks <- performHealthChecks h;
  ret (LocalSetupResult.mk manager envCreated services
         migrationsExecuted seedersExecuted healthChecks).

(** * Vocabulary of the specification *)

(** A relation between the world before and the world after that every
    step of a computation keeps. *)
Definition respects {A} (R : World -> World -> Prop) (m : M A) : Prop :=
  forall w, R w (snd (m w)).

(** The relation used throughout: the files are related by [F], and the
    trace grows by events that all satisfy [P]. *)
Definition grows (P : Event -> bool) (tr tr' : list Event) : Prop :=
  exists new, tr' = (tr ++ new)%list /\ forallb P new = true.

Definition step (P : Event -> bool) (F : Files -> Files -> Prop)
    (w w' : World) : Prop :=
  F (files w) (files w') /\ grows P (trace w) (trace w').

(** The part of the file system no operation of role setup changes
    before it writes the configuration: everything but the global
    copies. *)
Record same_inputs (f f' : Files) : Prop :=
  { si_roles : roles_yaml f' = roles_yaml f;
    si_config : config_json f' = config_json f;
    si_env_example : env_example f' = env_example f;
    si_pnpm : pnpm_lock f' = pnpm_lock f;
    si_yarn : yarn_lock f' = yarn_lock f;
    si_templates : internal_templates f' = internal_templates f;
    si_snippets : internal_snippets f' = internal_snippets f }.

(** The persisted configuration is left as it is. *)
Definition same_config (f f' : Files) : Prop := config_json f' = config_json f.

Definition any_event (e : Event) : bool := true.

(** An event that reads, probes or writes [appneural.config.json]. *)
Definition touches_config (e : Event) : bool :=
  match e with
  | EPathExists CONFIG_FILE | EReadFile CONFIG_FILE | EWriteFile CONFIG_FILE
  | EEnsureDir CONFIG_FILE
  | ECopyDirectory CONFIG_FILE _ | ECopyDirectory _ CONFIG_FILE
  | ECopyFile CONFIG_FILE _ | ECopyFile _ CONFIG_FILE => true
  | _ => false
  end.

Definition spares_config (e : Event) : bool := negb (touches_config e).

(** An event that writes a file or a directory. *)
Definition writes (e : Event) : bool :=
  match e with
  | EWriteFile _ | EEnsureDir _ | ECopyDirectory _ _ | ECopyFile _ _ => true
  | _ => false
  end.

(** The exit status of the [<tool> --version] probe issued at time [t]. *)
Definition available (h : Host) (t : nat) (tool : string) : bool :=
  execa_exit0 h t tool ["--version"].

Definition is_hex_digit (c : ascii) : bool :=
  let n := nat_of_ascii c in
  (Nat.leb 48 n && Nat.leb n 57) || (Nat.leb 97 n && Nat.leb n 102).

Fixpoint all_hex (s : string) : bool :=
  match s with
  | EmptyString => true
  | String c rest => is_hex_digit c && all_hex rest
  end.

(** A value of exactly 64 hexadecimal characters. *)
Definition hex64 (s : string) : Prop :=
  String.length s = 64 /\ all_hex s = true.

(** The secret [createSecret(32)] returns when it runs at time [t]. *)
Definition secret_at (h : Host) (t : nat) : string :=
  slice0 64 (to_hex (map (random_byte h t) (seq 0 32))).

Definition NL : string := String JsString.LF EmptyString.

(** [A=1\nB=2\n#comment\n\n] *)
Definition ENV_EXAMPLE_TEXT : string :=
  "A=1" +:+ NL +:+ "B=2" +:+ NL +:+ "#comment" +:+ NL +:+ NL.

(** The events of [readAppneuralConfig]: the existence check and, when
    the file is there, the read. *)
Definition read_config_events (f : Files) : list Event :=
  EPathExists CONFIG_FILE ::
  match config_json f with Some _ => [EReadFile CONFIG_FILE] | None => [] end.

(** The entry a health check records for [url], from what its GET
    settled to. *)
Definition entry_of (url : string) (o : FetchOutcome) : HealthCheck.t :=
  match o with
  | Responded status => HealthCheck.mk url (response_ok status) (Some status)
  | Rejected => HealthCheck.mk url false None
  end.

(** What the host answers to GETs issued one after the other from time
    [t] on, each with the health-check timeout. *)
Fixpoint outcomes_from (h : Host) (t : nat) (endpoints : list string)
    : list FetchOutcome :=
  match endpoints with
  | [] => []
  | url :: rest =>
      fetch_outcome h t url HEALTH_TIMEOUT_MS :: outcomes_from h (S t) rest
  end.

Definition fetch_event (url : string) (o : FetchOutcome) : Event :=
  EFetch url HEALTH_TIMEOUT_MS o.

(** The manifest [loadRolesManifest] returns, from the files alone. *)
Definition loaded_manifest (f : Files) : Result RoleManifest :=
  match roles_yaml f with
  | None => Ok DEFAULT_ROLES
  | Some Malformed => Throw YamlParseError
  | Some (Document None) => Ok DEFAULT_ROLES
  | Some (Document (Some roles)) =>
      Ok (if Js.no_keys roles then DEFAULT_ROLES else roles)
  end.

Definition load_events (f : Files) : list Event :=
  EPathExists ROLES_FILE ::
  match roles_yaml f with Some _ => [EReadFile ROLES_FILE] | None => [] end.

(** What a successful role setup returns. *)
Definition result_of (role : string) (d : RoleDefinition.t) : RoleSetupResult.t :=
  RoleSetupResult.mk role
    (RoleDefinition.shortcuts d ?? [])
    (RoleDefinition.templates d ?? [])
    (RoleDefinition.snippets d ?? [])
    (RoleDefinition.instructions d ?? []).

(** The configuration a successful role setup persists over [current]. *)
Definition next_config (role : string) (d : RoleDefinition.t)
    (current : AppneuralConfig.t) (appliedAt updatedAt : string)
    : AppneuralConfig.t :=
  AppneuralConfig.mk
    (Some role)
    (Some (RoleDefinition.shortcuts d ?? []))
    (Some (RoleDefinition.instructions d ?? []))
    (Some (RoleDefinition.templates d ?? []))
    (Some (RoleDefinition.snippets d ?? []))
    (Some (Js.spread (AppneuralConfig.settings current ?? ∅)
                     (RoleDefinition.config d ?? ∅)))
    (match config_healthChecks d with
     | Some urls => Some urls
     | None => AppneuralConfig.healthChecks current
     end)
    (Some ((AppneuralConfig.history current ?? [])
           ++ [HistoryEntry.mk role appliedAt])%list)
    (Some updatedAt).

(** The two halves of [applyRoleSetup] once the definition is found:
    copying the sources, then persisting and reporting. *)
Definition copy_sources (role : string) (d : RoleDefinition.t) : M unit :=
  run ensureDir GLOBAL_TEMPLATE_ROOT;
  run ensureDir GLOBAL_SNIPPET_ROOT;
  run for_of (RoleDefinition.templates d ?? []) (copyTemplateToGlobal role);
  for_of (RoleDefinition.snippets d ?? []) copySnippetToGlobal.

Fixpoint logs_from {A} (line : A -> nat -> string) (i : nat) (xs : list A)
    : list Event :=
  match xs with
  | [] => []
  | x :: xs' => ELogger info (line x i) :: logs_from line (S i) xs'
  end.

(** The events of the second half, run at time [t] over the files [f]. *)
Definition persist_events (h : Host) (d : RoleDefinition.t) (f : Files)
    (t : nat) : list Event :=
  (read_config_events f
   ++ [ EDateNow (date_iso h (t + List.length (read_config_events f)));
        EDateNow (date_iso h (S (t + List.length (read_config_events f))));
        EWriteFile CONFIG_FILE ]
   ++ logs_from instruction_line 0 (RoleDefinition.instructions d ?? [])
   ++ logs_from (fun s (_ : nat) => shortcut_line s) 0
        (RoleDefinition.shortcuts d ?? []))%list.

(** The configuration the second half persists, run at time [t]. *)
Definition persisted (h : Host) (role : string) (d : RoleDefinition.t)
    (f : Files) (t : nat) : AppneuralConfig.t :=
  next_config role d (config_json f ?? AppneuralConfig.empty)
    (date_iso h (t + List.length (read_config_events f)))
    (date_iso h (S (t + List.length (read_config_events f)))).

(** A copy recorded in the trace whose destination holds the source. *)
Definition copy_in_place (f : Files) (e : Event) : Prop :=
  match e with
  | ECopyDirectory (INTERNAL_TEMPLATE k) (GLOBAL_TEMPLATE r k') =>
      k' = k /\ is_Some (internal_templates f !! k) /\
      global_templates f !! (r, k) = internal_templates f !! k
  | ECopyFile (INTERNAL_SNIPPET k) (GLOBAL_SNIPPET k') =>
      k' = k /\ is_Some (internal_snippets f !! k) /\
      global_snippets f !! k = internal_snippets f !! k
  | ECopyDirectory _ _ | ECopyFile _ _ => False
  | _ => True
  end.

(** The inputs are untouched and a destination that holds its source
    keeps holding it. *)
Record keeps_copies (f f' : Files) : Prop :=
  { kc_inputs : same_inputs f f';
    kc_templates : forall r k,
      is_Some (internal_templates f !! k) ->
      global_templates f !! (r, k) = internal_templates f !! k ->
      global_templates f' !! (r, k) = internal_templates f !! k;
    kc_snippets : forall k,
      is_Some (internal_snippets f !! k) ->
      global_snippets f !! k = internal_snippets f !! k ->
      global_snippets f' !! k = internal_snippets f !! k }.

(** The steps of the first half: no event touches the configuration
    file, and every copy made is still in place afterwards. *)
Definition copying (w w' : World) : Prop :=
  keeps_copies (files w) (files w') /\
  exists new,
    trace w' = (trace w ++ new)%list /\
    forallb spares_config new = true /\
    Forall (copy_in_place (files w')) new.

Definition persist (h : Host) (role : string) (d : RoleDefinition.t)
    : M RoleSetupResult.t :=
  do currentConfig <- readAppneuralConfig;
  do appliedAt <- now_iso h;
  do updatedAt <- now_iso h;
  run writeAppneuralConfig (next_config role d currentConfig appliedAt updatedAt);
  run forEach (RoleDefinition.instructions d ?? [])
        (fun instruction index => logger info (instruction_line instruction index));
  run forEach (RoleDefinition.shortcuts d ?? [])
        (fun s _ => logger info (shortcut_line s));
  ret (result_of role d).

(** Every listed source of [d] is there. *)
Definition sources_present (f : Files) (d : RoleDefinition.t) : Prop :=
  (forall k, k ∈ RoleDefinition.templates d ?? [] ->
             is_Some (internal_templates f !! k)) /\
  (forall k, k ∈ RoleDefinition.snippets d ?? [] ->
             is_Some (internal_snippets f !! k)).

(** Some listed source of [d] is missing. *)
Definition source_missing (f : Files) (d : RoleDefinition.t) : Prop :=
  (exists k, k ∈ RoleDefinition.templates d ?? [] /\
             internal_templates f !! k = None) \/
  (exists k, k ∈ RoleDefinition.snippets d ?? [] /\
             internal_snippets f !! k = None).

Definition is_validation_error {A} (r : Result A) : Prop :=
  exists message context, r = Throw (ValidationError message context).

(** The settings persisted before a call. *)
Definition settings_of (f : Files) : gmap string json :=
  AppneuralConfig.settings (config_json f ?? AppneuralConfig.empty) ?? ∅.

(** The history persisted before a call. *)
Definition history_of (f : Files) : list HistoryEntry.t :=
  AppneuralConfig.history (config_json f ?? AppneuralConfig.empty) ?? [].

(** ** Concrete hosts and workspaces *)

(** A host on which every sub-process exits 0 and every GET answers 200. *)
Definition calm_host : Host :=
  {| execa_exit0 := fun _ _ _ => true;
     fetch_outcome := fun _ _ _ => Responded 200;
     random_byte := fun _ _ => Byte.x2a;
     date_iso := fun t => "2024-01-01T00:00:" +:+ pretty t +:+ ".000Z";
     EOL := NL |}.

(** An installation that ships every template and snippet the default
    roles list. *)
Definition shipped_templates : gmap string Tree :=
  list_to_map
    (map (fun k => (k, "tree of " +:+ k))
       [ "nest-service/basic"; "dto-crud/basic"; "rest-api-module/core";
         "react-page/dashboard"; "react-page/mobile"; "microservice-basic/base" ]).

Definition shipped_snippets : gmap string string :=
  list_to_map
    (map (fun k => (k, "# " +:+ k))
       [ "database-connection"; "apollo-client"; "mobile-storage";
         "fullstack-testing"; "cicd-pipeline" ]).

(** A workspace with the given configuration file and nothing else. *)
Definition workspace (config : option AppneuralConfig.t) : World :=
  {| files :=
       {| roles_yaml := None; config_json := config;
          env_example := None; dot_env := None;
          pnpm_lock := false; yarn_lock := false;
          internal_templates := shipped_templates;
          internal_snippets := shipped_snippets;
          global_template_root := false; global_snippet_root := false;
          global_templates := ∅; global_snippets := ∅ |};
     trace := [] |}.

Definition fresh_workspace : World := workspace None.

(** A workspace whose configuration already carries a setting. *)
Definition settled_workspace : World :=
  workspace
    (Some (AppneuralConfig.mk None None None None None
             (Some {[ "region" := JStr "eu" ]}) None None None)).

(** ** Vocabulary for the local environment setup *)

(** A sub-process that runs a package script. *)
Definition is_script_run (e : Event) : bool :=
  match e with
  | EExeca _ ("run" :: _) _ _ => true
  | _ => false
  end.

Definition no_script_run (e : Event) : bool := negb (is_script_run e).

(** The program and arguments [runScriptIfPresent] spawns. *)
Definition script_command (manager : PackageManager) (script : string)
    : string * list string :=
  match manager with
  | pnpm => ("pnpm", ["run"; script; "--if-present"])
  | yarn => ("yarn", ["run"; script])
  | npm => ("npm", ["run"; script; "--if-present"])
  end.

(** The exit status of that sub-process when spawned at time [t]. *)
Definition script_exit0 (h : Host) (manager : PackageManager)
    (script : string) (t : nat) : bool :=
  execa_exit0 h t (fst (script_command manager script))
    (snd (script_command manager script)).

(** The events of one [runScriptIfPresent] at time [t]: the spawn, and
    the warning when it failed. *)
Definition script_events (h : Host) (manager : PackageManager)
    (script : string) (t : nat) : list Event :=
  EExeca (fst (script_command manager script))
         (snd (script_command manager script)) inherit
         (script_exit0 h manager script t)
  :: if script_exit0 h manager script t then []
     else [ELogger warn ("APPNEURAL script '" +:+ script +:+ "' not available")].

(** The events of [performHealthChecks] at time [t] over the files [f],
    and its result. *)
Definition health_events (h : Host) (f : Files) (t : nat) : list Event :=
  let endpoints := health_endpoints (config_json f ?? AppneuralConfig.empty) in
  (read_config_events f
   ++ zip_with fetch_event endpoints
        (outcomes_from h (t + List.length (read_config_events f)) endpoints))%list.

Definition health_entries (h : Host) (f : Files) (t : nat) : list HealthCheck.t :=
  let endpoints := health_endpoints (config_json f ?? AppneuralConfig.empty) in
  zip_with entry_of endpoints
    (outcomes_from h (t + List.length (read_config_events f)) endpoints).

(** [runLocalEnvironmentSetup] up to and including the start of the
    container services. *)
Definition provision (h : Host) : M (PackageManager * bool * list string) :=
  run for_of REQUIRED_TOOLS (verify_tool h);
  do composeExecutor <- verifyDockerCompose h;
  do manager <- detectPackageManager h;
  run installDependencies h manager;
  do envCreated <- generateEnvFile h;
  do services <- startDockerServices h composeExecutor;
  ret (manager, envCreated, services).

(** What [runLocalEnvironmentSetup] does after [provision] returned
    [(manager, envCreated, services)] in the world [(f, tr)]. *)
Definition after_provision (h : Host) (manager : PackageManager)
    (envCreated : bool) (services : list string) (f : Files) (tr : list Event)
    : Result LocalSetupResult.t * World :=
  let t1 := List.length tr in
  let s1 := script_events h manager "migrate" t1 in
  let t2 := t1 + List.length s1 in
  let s2 := script_events h manager "seed" t2 in
  let t3 := t2 + List.length s2 in
  (Ok (LocalSetupResult.mk manager envCreated services
         (script_exit0 h manager "migrate" t1)
         (script_exit0 h manager "seed" t2)
         (health_entries h f t3)),
   {| files := f; trace := tr ++ s1 ++ s2 ++ health_events h f t3 |}).
Definition is_execa (e : Event) : bool :=
  match e with EExeca _ _ _ _ => true | _ => false end.

Definition script_warning (script : string) : Event :=
  ELogger warn ("APPNEURAL script '" +:+ script +:+ "' not available").

(** A host on which only the run of the [migrate] script fails. *)
Definition migrate_fails_host : Host :=
  {| execa_exit0 := fun _ _ args =>
       match args with
       | "run" :: "migrate" :: _ => false
       | _ => true
       end;
     fetch_outcome := fun _ _ _ => Rejected;
     random_byte := fun _ _ => Byte.x00;
     date_iso := fun _ => "2024-01-01T00:00:00.000Z";
     EOL := NL |}.

(** ** Sequences of operations *)

(** The two operations of the service. *)
Inductive Operation : Type :=
| ApplyRole (role : string)
| LocalSetup.

Definition succeeded {A} (r : Result A) : bool :=
  match r with Ok _ => true | Throw _ => false end.

(** One invocation: whether it succeeded, and the world it leaves. *)
Definition perform (h : Host) (op : Operation) (w : World) : bool * World :=
  match op with
  | ApplyRole role =>
      (succeeded (fst (applyRoleSetup h role w)), snd (applyRoleSetup h role w))
  | LocalSetup =>
      (succeeded (fst (runLocalEnvironmentSetup h w)),
       snd (runLocalEnvironmentSetup h w))
  end.

Fixpoint perform_all (h : Host) (ops : list Operation) (w : World)
    : list bool * World :=
  match ops with
  | [] => ([], w)
  | op :: rest =>
      let r := perform h op w in
      let rs := perform_all h rest (snd r) in
      (fst r :: fst rs, snd rs)
  end.

(** The roles of the role setups that succeeded, in order. *)
Fixpoint applied_roles (ops : list Operation) (oks : list bool) : list string :=
  match ops, oks with
  | ApplyRole role :: ops', true :: oks' => role :: applied_roles ops' oks'
  | _ :: ops', _ :: oks' => applied_roles ops' oks'
  | _, _ => []
  end.

(** ** Vocabulary for further properties of role setup *)

(** A user manifest that defines a single role, [qa]. *)
Definition qa_only_workspace : World :=
  {| files :=
       {| roles_yaml :=
            Some (Document (Some {[ "qa" :=
              RoleDefinition.mk (Some "quality") None None None None None ]}));
          config_json := None;
          env_example := None; dot_env := None;
          pnpm_lock := false; yarn_lock := false;
          internal_templates := shipped_templates;
          internal_snippets := shipped_snippets;
          global_template_root := false; global_snippet_root := false;
          global_templates := ∅; global_snippets := ∅ |};
     trace := [] |}.

(** ** Vocabulary for further properties of the local setup *)

(** Every file but [.env] is what it was. *)
Record only_dot_env (f f' : Files) : Prop :=
  { ode_roles : roles_yaml f' = roles_yaml f;
    ode_config : config_json f' = config_json f;
    ode_env_example : env_example f' = env_example f;
    ode_pnpm : pnpm_lock f' = pnpm_lock f;
    ode_yarn : yarn_lock f' = yarn_lock f;
    ode_templates : internal_templates f' = internal_templates f;
    ode_snippets : internal_snippets f' = internal_snippets f;
    ode_template_root : global_template_root f' = global_template_root f;
    ode_snippet_root : global_snippet_root f' = global_snippet_root f;
    ode_global_templates : global_templates f' = global_templates f;
    ode_global_snippets : global_snippets f' = global_snippets f }.

(** An event that writes nothing, or writes [.env]. *)
Definition writes_at_most_dot_env (e : Event) : bool :=
  match e with
  | EWriteFile ENV_FILE => true
  | _ => negb (writes e)
  end.

(** The events of a tool check: [--version] probes and warnings. *)
Definition is_tool_check (e : Event) : bool :=
  match e with
  | EExeca _ ["--version"] pipe _ => true
  | ELogger warn _ => true
  | _ => false
  end.

Definition requires_message (tool : string) : string :=
  "APPNEURAL requires " +:+ tool +:+ " to be installed".

(** No constraint on the files. *)
Definition any_files (f f' : Files) : Prop := True.

(** A failed [--version] probe of a required tool. *)
Definition is_required_probe_failure (e : Event) : bool :=
  match e with
  | EExeca tool ["--version"] pipe false =>
      existsb (fun t => Tool.required t && String.eqb (Tool.name t) tool)
        REQUIRED_TOOLS
  | _ => false
  end.

Definition no_required_probe_failure (e : Event) : bool :=
  negb (is_required_probe_failure e).

(** [runLocalEnvironmentSetup] after the tool check. *)
Definition after_tool_check (h : Host) : M LocalSetupResult.t :=
  do composeExecutor <- verifyDockerCompose h;
  do manager <- detectPackageManager h;
  run installDependencies h manager;
  do envCreated <- generateEnvFile h;
  do services <- startDockerServices h composeExecutor;
  do migrationsExecuted <- runScriptIfPresent h manager "migrate";
  do seedersExecuted <- runScriptIfPresent h manager "seed";
  do healthChecks <- performHealthChecks h;
  ret (LocalSetupResult.mk manager envCreated services
         migrationsExecuted seedersExecuted healthChecks).

(** * Properties *)

(** ** Reasoning about effects *)

Lemma bind_Ok {A B} (m : M A) (k : A -> M B) w a w1 :
  m w = (Ok a, w1) -> bind m k w = k a w1.
Proof. intros E. unfold bind. now rewrite E. Qed.

Lemma bind_Throw {A B} (m : M A) (k : A -> M B) w e w1 :
  m w = (Throw e, w1) -> bind m k w = (Throw e, w1).
Proof. intros E. unfold bind. now rewrite E. Qed.

Lemma bind_inv_Ok {A B} (m : M A) (k : A -> M B) w b w2 :
  bind m k w = (Ok b, w2) ->
  exists a w1, m w = (Ok a, w1) /\ k a w1 = (Ok b, w2).
Proof.
  unfold bind. destruct (m w) as [[a|e] w1]; intros E.
  - now exists a, w1.
  - discriminate.
Qed.

Section Respects.
Context (R : World -> World -> Prop) `{!PreOrder R}.

Lemma respects_ret {A} (a : A) : respects R (ret a).
Proof. intros w. simpl. reflexivity. Qed.

Lemma respects_throw {A} e : respects R (@throw A e).
Proof. intros w. simpl. reflexivity. Qed.

Lemma respects_tick : respects R tick.
Proof. intros w. simpl. reflexivity. Qed.

Lemma respects_get_files : respects R get_files.
Proof. intros w. simpl. reflexivity. Qed.

Lemma respects_bind {A B} (m : M A) (k : A -> M B) :
  respects R m -> (forall a, respects R (k a)) -> respects R (bind m k).
Proof.
  intros Hm Hk w. unfold bind. specialize (Hm w).
  destruct (m w) as [[a|e] w1]; simpl in *.
  - etransitivity; [exact Hm | apply Hk].
  - exact Hm.
Qed.

Lemma respects_try_catch {A} (m h : M A) :
  respects R m -> respects R h -> respects R (try_catch m h).
Proof.
  intros Hm Hh w. unfold try_catch. specialize (Hm w).
  destruct (m w) as [[a|e] w1]; simpl in *.
  - exact Hm.
  - etransitivity; [exact Hm | apply Hh].
Qed.

Lemma respects_for_of {A} (xs : list A) (f : A -> M unit) :
  (forall x, respects R (f x)) -> respects R (for_of xs f).
Proof.
  intros Hf. induction xs as [|x xs IH]; simpl.
  - apply respects_ret.
  - apply respects_bind; [apply Hf | intros _; exact IH].
Qed.

Lemma respects_forEach {A} (xs : list A) (f : A -> nat -> M unit) :
  (forall x i, respects R (f x i)) -> respects R (forEach xs f).
Proof.
  intros Hf. unfold forEach. generalize 0.
  induction xs as [|x xs IH]; intros i; simpl.
  - apply respects_ret.
  - apply respects_bind; [apply Hf | intros _; apply IH].
Qed.

Lemma respects_if {A} (b : bool) (m1 m2 : M A) :
  respects R m1 -> respects R m2 -> respects R (if b then m1 else m2).
Proof. now destruct b. Qed.
End Respects.

#[global] Instance grows_preorder P : PreOrder (grows P).
Proof.
  split.
  - intros tr. exists []. split; [now rewrite app_nil_r | reflexivity].
  - intros a b c [n1 [-> H1]] [n2 [-> H2]]. exists (n1 ++ n2)%list.
    split; [now rewrite app_assoc | ].
    rewrite forallb_app, H1, H2. reflexivity.
Qed.

#[global] Instance step_preorder P F `{!PreOrder F} : PreOrder (step P F).
Proof.
  split.
  - intros w. split; reflexivity.
  - intros a b c [F1 G1] [F2 G2]. split; etransitivity; eassumption.
Qed.

Lemma respects_emit P F `{!PreOrder F} e :
  P e = true -> respects (step P F) (emit e).
Proof.
  intros He w. split; simpl; [reflexivity | ].
  exists [e]. split; [reflexivity | simpl; now rewrite He].
Qed.

Lemma respects_modify_files P F `{!PreOrder F} g :
  (forall f, F f (g f)) -> respects (step P F) (modify_files g).
Proof. intros Hg w. split; simpl; [apply Hg | reflexivity]. Qed.

#[global] Instance same_inputs_preorder : PreOrder same_inputs.
Proof.
  split.
  - intros f. now split.
  - intros a b c [] []. split; congruence.
Qed.

#[global] Instance same_config_preorder : PreOrder same_config.
Proof. split; unfold same_config; [easy | intros a b c; congruence]. Qed.

(** ** Package-manager detection *)

Lemma isCommandAvailable_run h command args fs tr :
  isCommandAvailable h command args {| files := fs; trace := tr |} =
  (Ok (execa_exit0 h (List.length tr) command (args ?? ["--version"])),
   {| files := fs;
      trace := tr ++ [EExeca command (args ?? ["--version"]) pipe
                        (execa_exit0 h (List.length tr) command (args ?? ["--version"]))] |}).
Proof.
  unfold isCommandAvailable, try_catch, execa, bind, tick, emit; simpl.
  now destruct (execa_exit0 h (List.length tr) command (args ?? ["--version"])).
Qed.

(** C7. Package-manager detection, for every combination of lockfile
    presence and binary availability: with [pnpm-lock.yaml] the result is
    pnpm when the pnpm binary is available and npm when it is not;
    without it and with [yarn.lock] the result is yarn when the yarn
    binary is available and npm when it is not; with neither lockfile it
    is npm.  Availability is the exit status of the [--version] probe
    that detection itself issues, after one existence check for pnpm and
    after two for yarn. *)
Theorem detectPackageManager_table (h : Host) (w : World) :
  let t := List.length (trace w) in
  fst (detectPackageManager h w) =
  Ok (match pnpm_lock (files w), yarn_lock (files w) with
      | true, _ => if available h (t + 1) "pnpm" then pnpm else npm
      | false, true => if available h (t + 2) "yarn" then yarn else npm
      | false, false => npm
      end).
Proof.
  destruct w as [fs tr]. unfold detectPackageManager, available. simpl.
  unfold bind at 1. unfold pathExists, bind, emit, get_files, ret at 1 2 3. simpl.
  destruct (pnpm_lock fs) eqn:Ep.
  - rewrite isCommandAvailable_run. simpl. rewrite length_app. simpl.
    now destruct (execa_exit0 h _ _ _).
  - simpl. destruct (yarn_lock fs) eqn:Ey; [ | reflexivity].
    rewrite isCommandAvailable_run. simpl. rewrite !length_app. simpl.
    rewrite <- Nat.add_assoc. simpl.
    now destruct (execa_exit0 h _ _ _).
Qed.

(** ** Running a computation step by step *)

Lemma bind_run {A B} (m : M A) (k : A -> M B) w :
  bind m k w =
  match m w with
  | (Ok a, w') => k a w'
  | (Throw e, w') => (Throw e, w')
  end.
Proof. reflexivity. Qed.

Lemma pathExists_run p fs tr :
  pathExists p {| files := fs; trace := tr |} =
  (Ok (path_exists fs p), {| files := fs; trace := tr ++ [EPathExists p] |}).
Proof. reflexivity. Qed.

Lemma emit_run e fs tr :
  emit e {| files := fs; trace := tr |} =
  (Ok tt, {| files := fs; trace := tr ++ [e] |}).
Proof. reflexivity. Qed.

Lemma get_files_run fs tr :
  get_files {| files := fs; trace := tr |} = (Ok fs, {| files := fs; trace := tr |}).
Proof. reflexivity. Qed.

Lemma modify_files_run g fs tr :
  modify_files g {| files := fs; trace := tr |} =
  (Ok tt, {| files := g fs; trace := tr |}).
Proof. reflexivity. Qed.

Lemma ret_run {A} (a : A) w : ret a w = (Ok a, w).
Proof. reflexivity. Qed.

Lemma throw_run {A} e w : @throw A e w = (Throw e, w).
Proof. reflexivity. Qed.

Ltac mrun lem := rewrite bind_run, lem; cbv beta iota.


(** ** [.env] generation *)

Lemma hex_digit_is_hex n : is_hex_digit (hex_digit n) = true.
Proof.
  destruct n as [|p]; [reflexivity | ].
  do 4 (destruct p as [p|p| ]; try reflexivity).
Qed.

Lemma to_hex_length bytes :
  String.length (to_hex bytes) = 2 * List.length bytes.
Proof. induction bytes as [|b bs IH]; simpl; [reflexivity | rewrite IH; lia]. Qed.

Lemma to_hex_all_hex bytes : all_hex (to_hex bytes) = true.
Proof.
  induction bytes as [|b bs IH]; simpl; [reflexivity | ].
  now rewrite !hex_digit_is_hex, IH.
Qed.

Lemma substring_whole s : String.substring 0 (String.length s) s = s.
Proof. induction s as [|c s IH]; simpl; [reflexivity | now rewrite IH]. Qed.

Lemma secret_at_hex64 h t : hex64 (secret_at h t).
Proof.
  unfold secret_at, slice0.
  set (bytes := map (random_byte h t) (seq 0 32)).
  assert (L : String.length (to_hex bytes) = 64).
  { rewrite to_hex_length. unfold bytes. now rewrite length_map, length_seq. }
  rewrite <- L, substring_whole. split; [exact L | apply to_hex_all_hex].
Qed.

Lemma createSecret_run h fs tr :
  createSecret h 32 {| files := fs; trace := tr |} =
  (Ok (secret_at h (List.length tr)),
   {| files := fs; trace := tr ++ [ERandomBytes 32] |}).
Proof. reflexivity. Qed.

Lemma generateEnvFile_present h fs tr example :
  env_example fs = Some example ->
  let t := List.length tr in
  generateEnvFile h {| files := fs; trace := tr |} =
  (Ok true,
   {| files :=
        with_dot_env
          (serializeEnv (EOL h)
             (JsObject.set
                (JsObject.set (parseEnv example) "JWT_SECRET" (secret_at h (t + 2)))
                "ENCRYPTION_KEY" (secret_at h (t + 3)))) fs;
      trace := tr ++ [EPathExists ENV_EXAMPLE; EReadFile ENV_EXAMPLE;
                      ERandomBytes 32; ERandomBytes 32; EWriteFile ENV_FILE] |}).
Proof.
  intros E t. unfold generateEnvFile.
  mrun pathExists_run. cbn [path_exists]. rewrite E. cbn [negb bool_decide decide_rel is_Some_dec].
  mrun emit_run. mrun get_files_run. rewrite E.
  mrun createSecret_run. mrun createSecret_run.
  mrun emit_run. mrun modify_files_run. rewrite ret_run.
  rewrite !length_app. cbn [List.length]. subst t.
  rewrite <- !Nat.add_assoc. cbn [Nat.add].
  rewrite <- !app_assoc. reflexivity.
Qed.

Lemma generateEnvFile_absent h fs tr :
  env_example fs = None ->
  generateEnvFile h {| files := fs; trace := tr |} =
  (Ok false, {| files := fs; trace := tr ++ [EPathExists ENV_EXAMPLE] |}).
Proof.
  intros E. unfold generateEnvFile.
  mrun pathExists_run. cbn [path_exists]. rewrite E. reflexivity.
Qed.

(** C6. From a [.env.example] that reads [A=1\nB=2\n#comment\n\n], env
    generation returns true and writes a [.env] made of exactly four
    lines, joined by the platform's line terminator: [A=1], [B=2],
    [JWT_SECRET=<s1>] and [ENCRYPTION_KEY=<s2>], where [s1] and [s2] are
    each exactly 64 hexadecimal characters; the comment line and the blank
    lines are not reproduced.  When [.env.example] is absent it returns
    false, leaves every file as it was, and the only effect is the
    existence check. *)
Theorem generateEnvFile_example (h : Host) (w : World) :
  (env_example (files w) = Some ENV_EXAMPLE_TEXT ->
   exists jwt key,
     hex64 jwt /\ hex64 key /\
     fst (generateEnvFile h w) = Ok true /\
     dot_env (files (snd (generateEnvFile h w))) =
       Some (JsString.join (EOL h)
               [ "A=1"; "B=2"; "JWT_SECRET=" +:+ jwt; "ENCRYPTION_KEY=" +:+ key ])) /\
  (env_example (files w) = None ->
   fst (generateEnvFile h w) = Ok false /\
   files (snd (generateEnvFile h w)) = files w /\
   trace (snd (generateEnvFile h w)) = (trace w ++ [EPathExists ENV_EXAMPLE])%list).
Proof.
  destruct w as [fs tr]. simpl. split; intros E.
  - exists (secret_at h (List.length tr + 2)), (secret_at h (List.length tr + 3)).
    split; [apply secret_at_hex64 | ]. split; [apply secret_at_hex64 | ].
    rewrite (generateEnvFile_present h fs tr _ E). simpl. split; reflexivity.
  - rewrite (generateEnvFile_absent h fs tr E). simpl. repeat split; reflexivity.
Qed.

(** ** Health checks *)

Lemma readAppneuralConfig_run fs tr :
  readAppneuralConfig {| files := fs; trace := tr |} =
  (Ok (config_json fs ?? AppneuralConfig.empty),
   {| files := fs; trace := tr ++ read_config_events fs |}).
Proof.
  unfold readAppneuralConfig, read_config_events.
  mrun pathExists_run. cbn [path_exists].
  destruct (config_json fs) as [c|] eqn:E.
  - cbn [negb bool_decide decide_rel is_Some_dec].
    mrun emit_run. mrun get_files_run. rewrite E, ret_run.
    now rewrite <- app_assoc.
  - reflexivity.
Qed.

Lemma probe_run h url fs tr :
  probe h url {| files := fs; trace := tr |} =
  (Ok (entry_of url (fetch_outcome h (List.length tr) url HEALTH_TIMEOUT_MS)),
   {| files := fs;
      trace := tr ++ [fetch_event url (fetch_outcome h (List.length tr) url HEALTH_TIMEOUT_MS)] |}).
Proof.
  unfold probe, try_catch, fetch, fetch_event.
  rewrite bind_run. rewrite bind_run. cbv beta iota. unfold tick at 1. cbv beta iota.
  cbn [trace]. rewrite bind_run, emit_run. cbv beta iota.
  now destruct (fetch_outcome h (List.length tr) url HEALTH_TIMEOUT_MS).
Qed.

Lemma probe_all_run h endpoints : forall fs tr,
  probe_all h endpoints {| files := fs; trace := tr |} =
  (Ok (zip_with entry_of endpoints (outcomes_from h (List.length tr) endpoints)),
   {| files := fs;
      trace := tr ++ zip_with fetch_event endpoints
                      (outcomes_from h (List.length tr) endpoints) |}).
Proof.
  induction endpoints as [|url rest IH]; intros fs tr; cbn [probe_all outcomes_from zip_with].
  - now rewrite ret_run, app_nil_r.
  - mrun probe_run. rewrite bind_run, IH. cbv beta iota. rewrite ret_run.
    rewrite length_app. cbn [List.length]. rewrite Nat.add_1_r.
    now rewrite <- app_assoc.
Qed.

Lemma performHealthChecks_run h fs tr :
  let endpoints := health_endpoints (config_json fs ?? AppneuralConfig.empty) in
  let outcomes :=
    outcomes_from h (List.length tr + List.length (read_config_events fs)) endpoints in
  performHealthChecks h {| files := fs; trace := tr |} =
  (Ok (zip_with entry_of endpoints outcomes),
   {| files := fs;
      trace := tr ++ read_config_events fs ++ zip_with fetch_event endpoints outcomes |}).
Proof.
  intros endpoints outcomes. unfold performHealthChecks.
  mrun readAppneuralConfig_run. rewrite probe_all_run.
  rewrite length_app, <- app_assoc. reflexivity.
Qed.

(** C8. Health-check aggregation keeps the order of the endpoints and the
    shape of each entry.  The endpoints are the persisted [healthChecks]
    when that list is non-empty and the three default localhost endpoints
    otherwise.  The result is, endpoint by endpoint and in the original
    order, the entry of what the GET settled to: [healthy] equal to
    [response.ok] together with the status code when it completed,
    [healthy] false and no status when it was rejected or aborted by the
    timer.  Every GET is issued with the 4000 ms timeout, after the read
    of the configuration and in the order of the list.  In particular,
    with two endpoints of which the first answers 200 and the second
    times out, the result is
    [[{url1, healthy: true, status: 200}; {url2, healthy: false}]]. *)
Theorem performHealthChecks_spec (h : Host) (w : World) :
  let config := config_json (files w) ?? AppneuralConfig.empty in
  let endpoints := health_endpoints config in
  let t0 := List.length (trace w) + List.length (read_config_events (files w)) in
  let outcomes := outcomes_from h t0 endpoints in
  (forall l, AppneuralConfig.healthChecks config = Some l -> l <> [] -> endpoints = l) /\
  (AppneuralConfig.healthChecks config = None \/
   AppneuralConfig.healthChecks config = Some [] ->
   endpoints = [ "http://localhost:3000/health";
                 "http://localhost:4000/health";
                 "http://localhost:8080/ready" ]) /\
  fst (performHealthChecks h w) = Ok (zip_with entry_of endpoints outcomes) /\
  files (snd (performHealthChecks h w)) = files w /\
  trace (snd (performHealthChecks h w)) =
    (trace w ++ read_config_events (files w)
             ++ zip_with fetch_event endpoints outcomes)%list /\
  HEALTH_TIMEOUT_MS = 4000%Z /\
  (forall url1 url2,
     AppneuralConfig.healthChecks config = Some [url1; url2] ->
     fetch_outcome h t0 url1 HEALTH_TIMEOUT_MS = Responded 200 ->
     fetch_outcome h (S t0) url2 HEALTH_TIMEOUT_MS = Rejected ->
     fst (performHealthChecks h w) =
       Ok [ HealthCheck.mk url1 true (Some 200%Z);
            HealthCheck.mk url2 false None ]).
Proof.
  destruct w as [fs tr]. cbn [files trace].
  rewrite performHealthChecks_run. cbn [fst snd files trace].
  repeat split.
  - intros l E Hl. unfold health_endpoints. rewrite E. now destruct l.
  - intros [E|E]; unfold health_endpoints; now rewrite E.
  - intros url1 url2 E H1 H2. unfold health_endpoints.
    rewrite E. cbn [outcomes_from zip_with]. now rewrite H1, H2.
Qed.

(** ** Role setup, step by step *)

Lemma loadRolesManifest_run fs tr :
  loadRolesManifest {| files := fs; trace := tr |} =
  (loaded_manifest fs, {| files := fs; trace := tr ++ load_events fs |}).
Proof.
  unfold loadRolesManifest, loaded_manifest, load_events.
  mrun pathExists_run. cbn [path_exists].
  destruct (roles_yaml fs) as [[|[roles|]]|] eqn:E;
    cbn [negb bool_decide decide_rel is_Some_dec]; try reflexivity;
    mrun emit_run; mrun get_files_run; rewrite E, <- app_assoc;
    try reflexivity.
  now destruct (Js.no_keys roles).
Qed.

Lemma ensureDir_run p fs tr :
  ensureDir p {| files := fs; trace := tr |} =
  (Ok tt,
   {| files :=
        match p with
        | GLOBAL_TEMPLATE_ROOT => with_global_roots true (global_snippet_root fs) fs
        | GLOBAL_SNIPPET_ROOT => with_global_roots (global_template_root fs) true fs
        | _ => fs
        end;
      trace := tr ++ [EEnsureDir p] |}).
Proof. reflexivity. Qed.

Lemma now_iso_run h fs tr :
  now_iso h {| files := fs; trace := tr |} =
  (Ok (date_iso h (List.length tr)),
   {| files := fs; trace := tr ++ [EDateNow (date_iso h (List.length tr))] |}).
Proof. reflexivity. Qed.

Lemma writeAppneuralConfig_run c fs tr :
  writeAppneuralConfig c {| files := fs; trace := tr |} =
  (Ok tt, {| files := with_config_json c fs; trace := tr ++ [EWriteFile CONFIG_FILE] |}).
Proof. reflexivity. Qed.

Lemma forEach_from_logger_run {A} (line : A -> nat -> string) xs : forall i fs tr,
  forEach_from i xs (fun x j => logger info (line x j)) {| files := fs; trace := tr |} =
  (Ok tt, {| files := fs; trace := tr ++ logs_from line i xs |}).
Proof.
  induction xs as [|x xs IH]; intros i fs tr; cbn [forEach_from logs_from].
  - now rewrite ret_run, app_nil_r.
  - unfold logger at 1. mrun emit_run. rewrite IH. now rewrite <- app_assoc.
Qed.

Lemma copyTemplateToGlobal_run role k fs tr :
  copyTemplateToGlobal role k {| files := fs; trace := tr |} =
  match internal_templates fs !! k with
  | Some tree =>
      (Ok tt,
       {| files := with_global_templates (<[(role, k) := tree]> (global_templates fs)) fs;
          trace := tr ++ [EPathExists (INTERNAL_TEMPLATE k);
                          ECopyDirectory (INTERNAL_TEMPLATE k) (GLOBAL_TEMPLATE role k)] |})
  | None =>
      (Throw (ValidationError "APPNEURAL role template missing" [("templateKey", k)]),
       {| files := fs; trace := tr ++ [EPathExists (INTERNAL_TEMPLATE k)] |})
  end.
Proof.
  unfold copyTemplateToGlobal. mrun pathExists_run. cbn [path_exists].
  destruct (internal_templates fs !! k) as [tree|] eqn:E;
    cbn [negb bool_decide decide_rel is_Some_dec]; [ | reflexivity].
  mrun emit_run. rewrite modify_files_run, E, <- app_assoc. reflexivity.
Qed.

Lemma copySnippetToGlobal_run k fs tr :
  copySnippetToGlobal k {| files := fs; trace := tr |} =
  match internal_snippets fs !! k with
  | Some text =>
      (Ok tt,
       {| files :=
            with_global_snippets (<[k := text]> (global_snippets fs))
              (with_global_roots (global_template_root fs) true fs);
          trace := tr ++ [EPathExists (INTERNAL_SNIPPET k);
                          EEnsureDir GLOBAL_SNIPPET_ROOT;
                          ECopyFile (INTERNAL_SNIPPET k) (GLOBAL_SNIPPET k)] |})
  | None =>
      (Throw (ValidationError "APPNEURAL snippet missing" [("snippetKey", k)]),
       {| files := fs; trace := tr ++ [EPathExists (INTERNAL_SNIPPET k)] |})
  end.
Proof.
  unfold copySnippetToGlobal. mrun pathExists_run. cbn [path_exists].
  destruct (internal_snippets fs !! k) as [text|] eqn:E;
    cbn [negb bool_decide decide_rel is_Some_dec]; [ | reflexivity].
  mrun ensureDir_run. mrun emit_run. rewrite modify_files_run.
  cbn [internal_snippets with_global_roots]. rewrite E, <- !app_assoc. reflexivity.
Qed.

Lemma persist_run h role d fs tr :
  persist h role d {| files := fs; trace := tr |} =
  (Ok (result_of role d),
   {| files := with_config_json (persisted h role d fs (List.length tr)) fs;
      trace := tr ++ persist_events h d fs (List.length tr) |}).
Proof.
  unfold persist, persisted, persist_events.
  mrun readAppneuralConfig_run. mrun now_iso_run. mrun now_iso_run.
  mrun writeAppneuralConfig_run.
  unfold forEach. mrun (forEach_from_logger_run instruction_line).
  mrun (forEach_from_logger_run (fun s (_ : nat) => shortcut_line s)).
  rewrite ret_run. rewrite !length_app. cbn [List.length].
  rewrite Nat.add_1_r. rewrite <- !app_assoc. reflexivity.
Qed.
Lemma applyRoleSetup_run h role fs tr :
  applyRoleSetup h role {| files := fs; trace := tr |} =
  let w1 := {| files := fs; trace := tr ++ load_events fs |} in
  match loaded_manifest fs with
  | Throw e => (Throw e, w1)
  | Ok manifest =>
      match manifest_get manifest role with
      | None =>
          (Throw (ValidationError "APPNEURAL role not found" [("role", role)]), w1)
      | Some d =>
          match copy_sources role d w1 with
          | (Ok _, w2) => persist h role d w2
          | (Throw e, w2) => (Throw e, w2)
          end
      end
  end.
Proof.
  unfold applyRoleSetup. rewrite bind_run, loadRolesManifest_run.
  destruct (loaded_manifest fs) as [manifest|e]; cbv beta iota zeta; [ | reflexivity].
  destruct (manifest_get manifest role) as [d|]; [ | reflexivity].
  unfold copy_sources, persist.
  mrun ensureDir_run. mrun ensureDir_run.
  rewrite (bind_run (ensureDir GLOBAL_TEMPLATE_ROOT)), ensureDir_run. cbv beta iota.
  rewrite (bind_run (ensureDir GLOBAL_SNIPPET_ROOT)), ensureDir_run. cbv beta iota.
  rewrite !(bind_run (for_of _ _)).
  destruct (for_of (RoleDefinition.templates d ?? []) _ _) as [[u|e] w2];
    [ | reflexivity].
  rewrite ?(bind_run (for_of _ _)).
  destruct (for_of (RoleDefinition.snippets d ?? []) _ _) as [[u'|e] w3];
    reflexivity.
Qed.

Lemma keeps_copies_in_place f f' e :
  keeps_copies f f' -> copy_in_place f e -> copy_in_place f' e.
Proof.
  intros [[_ _ _ _ _ Hit His] Ht Hs] H.
  destruct e as [| | | |s d0|s d0| | | | |]; try exact I;
    destruct s; try contradiction; destruct d0; try contradiction;
    destruct H as (-> & Hi & Hg); repeat split.
  - congruence.
  - rewrite Hit. now apply Ht.
  - congruence.
  - rewrite His. now apply Hs.
Qed.

#[global] Instance keeps_copies_preorder : PreOrder keeps_copies.
Proof.
  split.
  - intros f. split; [reflexivity | auto | auto].
  - intros a b c [I1 T1 S1] [I2 T2 S2]. split.
    + etransitivity; eassumption.
    + intros r k Hi Hg. destruct I1 as [_ _ _ _ _ Hit His].
      rewrite <- Hit. apply T2; rewrite Hit; auto.
    + intros k Hi Hg. destruct I1 as [_ _ _ _ _ Hit His].
      rewrite <- His. apply S2; rewrite His; auto.
Qed.

#[global] Instance copying_preorder : PreOrder copying.
Proof.
  split.
  - intros w. split; [reflexivity | ]. exists []. rewrite app_nil_r. now repeat split.
  - intros a b c [K1 (n1 & E1 & P1 & C1)] [K2 (n2 & E2 & P2 & C2)]. split.
    + etransitivity; eassumption.
    + exists (n1 ++ n2)%list. rewrite E2, E1, app_assoc, forallb_app, P1, P2.
      repeat split. apply Forall_app. split; [ | exact C2].
      eapply Forall_impl; [exact C1 | ].
      intros e. now apply keeps_copies_in_place.
Qed.

Lemma copying_events fs tr new :
  forallb spares_config new = true ->
  Forall (copy_in_place fs) new ->
  copying {| files := fs; trace := tr |} {| files := fs; trace := tr ++ new |}.
Proof. intros P C. split; [reflexivity | ]. now exists new. Qed.

Lemma copying_ensureDir p :
  p = GLOBAL_TEMPLATE_ROOT \/ p = GLOBAL_SNIPPET_ROOT -> respects copying (ensureDir p).
Proof.
  intros Hp [fs tr]. rewrite ensureDir_run. cbn [snd].
  split; cbn [files trace].
  - destruct Hp as [-> | ->]; (split; [now split | auto | auto]).
  - exists [EEnsureDir p]. destruct Hp as [-> | ->]; repeat split; repeat constructor.
Qed.

Lemma copying_copyTemplateToGlobal role k :
  respects copying (copyTemplateToGlobal role k).
Proof.
  intros [fs tr]. rewrite copyTemplateToGlobal_run.
  destruct (internal_templates fs !! k) as [tree|] eqn:E; cbn [snd].
  - split; cbn [files trace].
    + split; [now split | | auto].
      intros r k' Hi Hg. cbn [global_templates with_global_templates].
      destruct (decide ((role, k) = (r, k'))) as [[= <- <-]|Hne].
      * now rewrite lookup_insert_eq, E.
      * now rewrite lookup_insert_ne.
    + eexists. split; [reflexivity | ]. split; [reflexivity | ].
      repeat constructor.
      * cbn [internal_templates with_global_templates]. rewrite E. eauto.
      * cbn [internal_templates global_templates with_global_templates].
        now rewrite lookup_insert_eq, E.
  - apply copying_events; repeat constructor.
Qed.

Lemma copying_copySnippetToGlobal k :
  respects copying (copySnippetToGlobal k).
Proof.
  intros [fs tr]. rewrite copySnippetToGlobal_run.
  destruct (internal_snippets fs !! k) as [text|] eqn:E; cbn [snd].
  - split; cbn [files trace].
    + split; [now split | auto | ].
      intros k' Hi Hg. cbn [global_snippets with_global_snippets].
      destruct (decide (k = k')) as [<-|Hne].
      * now rewrite lookup_insert_eq, E.
      * now rewrite lookup_insert_ne.
    + eexists. split; [reflexivity | ]. split; [reflexivity | ].
      repeat constructor.
      * cbn [internal_snippets with_global_snippets with_global_roots]. rewrite E. eauto.
      * cbn [internal_snippets global_snippets with_global_snippets with_global_roots].
        now rewrite lookup_insert_eq, E.
  - apply copying_events; repeat constructor.
Qed.

Lemma copying_copy_sources role d : respects copying (copy_sources role d).
Proof.
  unfold copy_sources.
  apply respects_bind; [apply _ | apply copying_ensureDir; auto | intros _].
  apply respects_bind; [apply _ | apply copying_ensureDir; auto | intros _].
  apply respects_bind; [apply _ | | intros _].
  - apply respects_for_of; [apply _ | apply copying_copyTemplateToGlobal].
  - apply respects_for_of; [apply _ | apply copying_copySnippetToGlobal].
Qed.

Lemma copy_templates_result role ks : forall fs tr,
  let res := fst (for_of ks (copyTemplateToGlobal role) {| files := fs; trace := tr |}) in
  ((forall k, k ∈ ks -> is_Some (internal_templates fs !! k)) /\ res = Ok tt) \/
  (exists k, k ∈ ks /\ internal_templates fs !! k = None /\
             res = Throw (ValidationError "APPNEURAL role template missing"
                            [("templateKey", k)])).
Proof.
  induction ks as [|k ks IH]; intros fs tr; cbn [for_of].
  - left. split; [ | reflexivity]. intros k Hk. inversion Hk.
  - rewrite bind_run, copyTemplateToGlobal_run.
    destruct (internal_templates fs !! k) as [tree|] eqn:E; cbv beta iota zeta.
    + specialize (IH (with_global_templates (<[(role, k):=tree]> (global_templates fs)) fs)
                     (tr ++ [EPathExists (INTERNAL_TEMPLATE k);
                             ECopyDirectory (INTERNAL_TEMPLATE k) (GLOBAL_TEMPLATE role k)])%list).
      cbv zeta in IH. cbn [internal_templates with_global_templates] in IH.
      destruct IH as [[Hall Hres] | (k' & Hin & Hmiss & Hres)].
      * left. split; [ | exact Hres].
        intros k' [-> | Hk']%elem_of_cons; [rewrite E; eauto | auto].
      * right. exists k'. split; [apply elem_of_cons; now right | auto].
    + right. exists k. split; [apply elem_of_cons; now left | auto].
Qed.

Lemma copy_snippets_result ks : forall fs tr,
  let res := fst (for_of ks copySnippetToGlobal {| files := fs; trace := tr |}) in
  ((forall k, k ∈ ks -> is_Some (internal_snippets fs !! k)) /\ res = Ok tt) \/
  (exists k, k ∈ ks /\ internal_snippets fs !! k = None /\
             res = Throw (ValidationError "APPNEURAL snippet missing"
                            [("snippetKey", k)])).
Proof.
  induction ks as [|k ks IH]; intros fs tr; cbn [for_of].
  - left. split; [ | reflexivity]. intros k Hk. inversion Hk.
  - rewrite bind_run, copySnippetToGlobal_run.
    destruct (internal_snippets fs !! k) as [text|] eqn:E; cbv beta iota zeta.
    + match goal with
      | |- context [for_of ks copySnippetToGlobal {| files := ?f; trace := ?t |}] =>
          specialize (IH f t)
      end.
      cbv zeta in IH.
      cbn [internal_snippets with_global_snippets with_global_roots] in IH.
      destruct IH as [[Hall Hres] | (k' & Hin & Hmiss & Hres)].
      * left. split; [ | exact Hres].
        intros k' [-> | Hk']%elem_of_cons; [rewrite E; eauto | auto].
      * right. exists k'. split; [apply elem_of_cons; now right | auto].
    + right. exists k. split; [apply elem_of_cons; now left | auto].
Qed.

(** The first half succeeds exactly when every source is there, and
    fails with a validation error otherwise. *)
Lemma copy_sources_result role d w :
  (sources_present (files w) d /\ fst (copy_sources role d w) = Ok tt) \/
  (source_missing (files w) d /\ is_validation_error (fst (copy_sources role d w))).
Proof.
  destruct w as [fs tr]. cbn [files]. unfold copy_sources.
  mrun ensureDir_run. mrun ensureDir_run. rewrite bind_run.
  match goal with
  | |- context [for_of _ (copyTemplateToGlobal role) {| files := ?f; trace := ?t |}] =>
      pose proof (copy_templates_result role (RoleDefinition.templates d ?? []) f t) as HT;
      pose proof (copying_copyTemplateToGlobal role) as HC;
      apply (respects_for_of copying (RoleDefinition.templates d ?? [])) in HC;
      specialize (HC {| files := f; trace := t |})
  end.
  cbv zeta in HT. cbn [internal_templates with_global_roots] in HT.
  destruct (for_of _ (copyTemplateToGlobal role) _) as [[[]|e] [fs2 tr2]];
    cbn [fst snd] in *.
  - destruct HT as [[Hall _] | (k & _ & _ & [=])].
    destruct HC as [[[_ _ _ _ _ _ His] _ _] _].
    cbn [files internal_snippets with_global_roots] in His.
    pose proof (copy_snippets_result (RoleDefinition.snippets d ?? []) fs2 tr2) as HS.
    cbv zeta in HS. rewrite His in HS.
    destruct HS as [[Hall' Hres] | (k & Hin & Hmiss & Hres)].
    + left. now repeat split.
    + right. split; [right; eauto | rewrite Hres; red; eauto].
  - destruct HT as [[_ [=]] | (k & Hin & Hmiss & ->)].
    right. split; [left; eauto | red; eauto].
Qed.

(** What a successful role setup is made of. *)
Lemma applyRoleSetup_Ok_inv h role w r w' :
  applyRoleSetup h role w = (Ok r, w') ->
  exists manifest d t,
    fst (loadRolesManifest w) = Ok manifest /\
    manifest_get manifest role = Some d /\
    sources_present (files w) d /\
    r = result_of role d /\
    config_json (files w') =
      Some (next_config role d (config_json (files w) ?? AppneuralConfig.empty)
              (date_iso h t) (date_iso h (S t))) /\
    roles_yaml (files w') = roles_yaml (files w) /\
    internal_templates (files w') = internal_templates (files w) /\
    internal_snippets (files w') = internal_snippets (files w).
Proof.
  destruct w as [fs tr]. rewrite applyRoleSetup_run, loadRolesManifest_run.
  cbv zeta. cbn [fst files].
  destruct (loaded_manifest fs) as [manifest|e]; [ | discriminate].
  destruct (manifest_get manifest role) as [d|] eqn:Eg; [ | discriminate].
  pose proof (copying_copy_sources role d {| files := fs; trace := tr ++ load_events fs |}) as HC.
  pose proof (copy_sources_result role d {| files := fs; trace := tr ++ load_events fs |}) as HR.
  destruct (copy_sources role d _) as [[[]|e] [fs2 tr2]]; [ | discriminate].
  cbn [fst snd files] in *.
  destruct HR as [[Hp _] | [_ (m & c & [=])]].
  destruct HC as [[[Hr Hc _ _ _ Hit His] _ _] _]. cbn [files] in *.
  rewrite persist_run. intros [= <- <-].
  exists manifest, d, (List.length tr2 + List.length (read_config_events fs2)).
  unfold persisted. cbn [files config_json roles_yaml internal_templates
                           internal_snippets with_config_json].
  rewrite Hc.
  split; [reflexivity | ]. split; [exact Eg | ]. split; [exact Hp | ].
  repeat split; assumption.
Qed.

(** Role setup succeeds as soon as the role is found and its sources are
    there. *)
Lemma applyRoleSetup_succeeds h role w manifest d :
  fst (loadRolesManifest w) = Ok manifest ->
  manifest_get manifest role = Some d ->
  sources_present (files w) d ->
  fst (applyRoleSetup h role w) = Ok (result_of role d).
Proof.
  destruct w as [fs tr]. rewrite applyRoleSetup_run, loadRolesManifest_run.
  cbv zeta. cbn [fst files]. intros -> -> Hp.
  pose proof (copy_sources_result role d {| files := fs; trace := tr ++ load_events fs |}) as HR.
  destruct (copy_sources role d _) as [[[]|e] [fs2 tr2]]; cbn [fst files] in *.
  - now rewrite persist_run.
  - destruct HR as [[_ [=]] | [Hm _]]. exfalso.
    destruct Hp as [HT HS].
    destruct Hm as [(k & Hin & Hk) | (k & Hin & Hk)].
    + specialize (HT k Hin). rewrite Hk in HT. now destruct HT.
    + specialize (HS k Hin). rewrite Hk in HS. now destruct HS.
Qed.

(** ** Role setup: what is returned and what is persisted *)

Lemma manifest_get_own (manifest : RoleManifest) role d :
  manifest !! role = Some d -> manifest_get manifest role = Some d.
Proof. intros E. unfold manifest_get, Js.get. now rewrite E. Qed.

Lemma manifest_get_inherited (manifest : RoleManifest) role :
  manifest !! role = None -> Js.on_prototype role = true ->
  manifest_get manifest role = Some RoleDefinition.prototype_member.
Proof. intros E P. unfold manifest_get, Js.get. now rewrite E, P. Qed.

Lemma manifest_get_undefined (manifest : RoleManifest) role :
  manifest !! role = None -> Js.on_prototype role = false ->
  manifest_get manifest role = None.
Proof. intros E P. unfold manifest_get, Js.get. now rewrite E, P. Qed.

Lemma spread_lookup (a b : gmap string json) k :
  Js.spread a b !! k =
  match b !! k with Some x => Some x | None => a !! k end.
Proof.
  unfold Js.spread. rewrite lookup_union.
  destruct (b !! k), (a !! k); reflexivity.
Qed.

Lemma DEFAULT_ROLES_inv role d :
  DEFAULT_ROLES !! role = Some d ->
  (role, d) ∈ DEFAULT_ROLES_LIST.
Proof. apply elem_of_list_to_map_2. Qed.

Lemma DEFAULT_ROLES_fully_specified role d :
  DEFAULT_ROLES !! role = Some d ->
  RoleDefinition.shortcuts d = Some (RoleDefinition.shortcuts d ?? []) /\
  RoleDefinition.templates d = Some (RoleDefinition.templates d ?? []) /\
  RoleDefinition.snippets d = Some (RoleDefinition.snippets d ?? []) /\
  RoleDefinition.instructions d = Some (RoleDefinition.instructions d ?? []).
Proof.
  intros H%DEFAULT_ROLES_inv. unfold DEFAULT_ROLES_LIST in H.
  repeat (apply elem_of_cons in H; destruct H as [[= -> ->] | H];
          [now repeat split | ]).
  now apply elem_of_nil in H.
Qed.

(** C3. For every role name that is a key of the built-in default
    manifest, when that manifest is the one loaded and the template
    directories and snippet files the role lists exist, [applyRoleSetup]
    succeeds and returns the role together with shortcuts, templates,
    snippets and instructions exactly equal to the fields of the role's
    definition in the default manifest. *)
Theorem applyRoleSetup_default_identity (h : Host) (w : World)
    (role : string) (d : RoleDefinition.t) :
  DEFAULT_ROLES !! role = Some d ->
  fst (loadRolesManifest w) = Ok DEFAULT_ROLES ->
  sources_present (files w) d ->
  exists r,
    fst (applyRoleSetup h role w) = Ok r /\
    RoleSetupResult.role r = role /\
    Some (RoleSetupResult.shortcuts r) = RoleDefinition.shortcuts d /\
    Some (RoleSetupResult.templates r) = RoleDefinition.templates d /\
    Some (RoleSetupResult.snippets r) = RoleDefinition.snippets d /\
    Some (RoleSetupResult.instructions r) = RoleDefinition.instructions d.
Proof.
  intros Hd Hm Hp. exists (result_of role d).
  split; [ | split; [reflexivity | ]].
  - eapply applyRoleSetup_succeeds; eauto using manifest_get_own.
  - destruct (DEFAULT_ROLES_fully_specified role d Hd) as (-> & -> & -> & ->).
    now repeat split.
Qed.

(** A name that [manifest[role]] does not resolve is rejected before any
    effect other than loading the manifest. *)
Lemma applyRoleSetup_undefined h role w manifest :
  fst (loadRolesManifest w) = Ok manifest ->
  manifest_get manifest role = None ->
  applyRoleSetup h role w =
  (Throw (ValidationError "APPNEURAL role not found" [("role", role)]),
   {| files := files w; trace := trace w ++ load_events (files w) |}) /\
  forallb (fun e => negb (writes e)) (load_events (files w)) = true.
Proof.
  destruct w as [fs tr]. rewrite loadRolesManifest_run, applyRoleSetup_run.
  cbn [fst files trace]. intros -> ->. split; [reflexivity | ].
  unfold load_events. now destruct (roles_yaml fs).
Qed.

Lemma next_config_changes role d c t1 t2 :
  Some (next_config role d (c ?? AppneuralConfig.empty) t1 t2) <> c.
Proof.
  destruct c as [c|]; [ | discriminate]. intros [= E].
  apply (f_equal AppneuralConfig.history) in E. cbn in E.
  destruct (AppneuralConfig.history c) as [hs|]; [ | discriminate].
  injection E as E. apply (f_equal List.length) in E.
  rewrite length_app in E. cbn in E. lia.
Qed.

(** C4, on the code.  A role name that is not a key of the loaded
    manifest but names a member of [Object.prototype] (such as
    [toString] or [constructor]) passes the [!definition] guard:
    [manifest[role]] resolves along the prototype chain.  The call then
    succeeds with empty lists, ensures the global directories and
    rewrites the persisted configuration with that role and one more
    history entry. *)
Theorem applyRoleSetup_inherited_name (h : Host) (w : World)
    (manifest : RoleManifest) (role : string) :
  fst (loadRolesManifest w) = Ok manifest ->
  manifest !! role = None ->
  Js.on_prototype role = true ->
  exists w' new c appliedAt,
    applyRoleSetup h role w = (Ok (RoleSetupResult.mk role [] [] [] []), w') /\
    trace w' = (trace w ++ new)%list /\
    In (EEnsureDir GLOBAL_TEMPLATE_ROOT) new /\
    In (EWriteFile CONFIG_FILE) new /\
    config_json (files w') = Some c /\
    AppneuralConfig.role c = Some role /\
    history_of (files w') =
      (history_of (files w) ++ [HistoryEntry.mk role appliedAt])%list /\
    config_json (files w') <> config_json (files w).
Proof.
  destruct w as [fs tr]. rewrite loadRolesManifest_run.
  cbn [fst files trace]. intros Hm Hk Hp.
  rewrite applyRoleSetup_run, Hm. cbv zeta.
  rewrite (manifest_get_inherited _ _ Hk Hp).
  unfold copy_sources. cbn [RoleDefinition.templates RoleDefinition.snippets
    RoleDefinition.prototype_member Js.nullish for_of].
  mrun ensureDir_run. mrun ensureDir_run. rewrite bind_run, !ret_run.
  rewrite persist_run.
  eexists. eexists. eexists. eexists. split; [reflexivity | ]. cbn [files trace].
  split; [rewrite <- !app_assoc; reflexivity | ].
  unfold persist_events. rewrite !in_app_iff.
  split; [cbn; tauto | ]. split; [cbn; tauto | ].
  cbn [config_json with_config_json].
  split; [reflexivity | ]. split; [reflexivity | ].
  split; [reflexivity | ].
  cbn [with_global_roots config_json persisted]. apply next_config_changes.
Qed.

Lemma applyRoleSetup_twice_persisted h w A B manifest dA dB rA w1 rB w2 :
  fst (loadRolesManifest w) = Ok manifest ->
  manifest !! A = Some dA ->
  manifest !! B = Some dB ->
  applyRoleSetup h A w = (Ok rA, w1) ->
  applyRoleSetup h B w1 = (Ok rB, w2) ->
  exists tA tA' tB tB',
    config_json (files w2) =
      Some (next_config B dB
              (next_config A dA (config_json (files w) ?? AppneuralConfig.empty) tA tA')
              tB tB').
Proof.
  intros Hm HA HB H1 H2.
  apply applyRoleSetup_Ok_inv in H1
    as (m1 & d1 & t1 & Hm1 & Hg1 & _ & _ & Hc1 & Hr1 & _).
  apply applyRoleSetup_Ok_inv in H2
    as (m2 & d2 & t2 & Hm2 & Hg2 & _ & _ & Hc2 & _).
  rewrite Hm in Hm1. injection Hm1 as <-.
  assert (m2 = manifest) as ->.
  { destruct w as [fs tr], w1 as [fs1 tr1].
    rewrite loadRolesManifest_run in Hm, Hm2. cbn [fst files] in *.
    unfold loaded_manifest in Hm, Hm2. rewrite Hr1 in Hm2. congruence. }
  rewrite (manifest_get_own _ _ _ HA) in Hg1. injection Hg1 as <-.
  rewrite (manifest_get_own _ _ _ HB) in Hg2. injection Hg2 as <-.
  rewrite Hc1 in Hc2. cbn [Js.nullish] in Hc2. eauto.
Qed.

(** C1, as the code has it.  For two roles A and B present in the loaded
    manifest, applying A and then B, both successfully, leaves the
    persisted settings equal to the settings persisted before, overlaid
    with A's config and then with B's config: a key has B's value if B's
    config has it, else A's value if A's config has it, else the value it
    had before.  When no settings were persisted before, this is the
    shallow union of A's and B's config with B's keys taking precedence.
    The persisted shortcuts, templates, snippets and instructions are
    exactly B's (an absent list reads as the empty list), whatever A's
    were. *)
Theorem applyRoleSetup_twice (h : Host) (w : World) (A B : string)
    (manifest : RoleManifest) (dA dB : RoleDefinition.t)
    (rA rB : RoleSetupResult.t) (w1 w2 : World) :
  fst (loadRolesManifest w) = Ok manifest ->
  manifest !! A = Some dA ->
  manifest !! B = Some dB ->
  applyRoleSetup h A w = (Ok rA, w1) ->
  applyRoleSetup h B w1 = (Ok rB, w2) ->
  let before := settings_of (files w) in
  let configA := RoleDefinition.config dA ?? ∅ in
  let configB := RoleDefinition.config dB ?? ∅ in
  exists cfg settings,
    config_json (files w2) = Some cfg /\
    AppneuralConfig.settings cfg = Some settings /\
    settings = Js.spread (Js.spread before configA) configB /\
    (forall k, settings !! k =
               match configB !! k with
               | Some x => Some x
               | None => match configA !! k with
                         | Some x => Some x
                         | None => before !! k
                         end
               end) /\
    (before = ∅ -> settings = Js.spread configA configB) /\
    AppneuralConfig.shortcuts cfg = Some (RoleDefinition.shortcuts dB ?? []) /\
    AppneuralConfig.templates cfg = Some (RoleDefinition.templates dB ?? []) /\
    AppneuralConfig.snippets cfg = Some (RoleDefinition.snippets dB ?? []) /\
    AppneuralConfig.instructions cfg = Some (RoleDefinition.instructions dB ?? []).
Proof.
  intros Hm HA HB H1 H2 before configA configB.
  destruct (applyRoleSetup_twice_persisted _ _ _ _ _ _ _ _ _ _ _ Hm HA HB H1 H2)
    as (tA & tA' & tB & tB' & Hc).
  eexists. eexists. split; [exact Hc | ].
  cbn [next_config AppneuralConfig.settings AppneuralConfig.shortcuts
       AppneuralConfig.templates AppneuralConfig.snippets
       AppneuralConfig.instructions Js.nullish].
  split; [reflexivity | ]. split; [reflexivity | ].
  split; [intros k; now rewrite !spread_lookup | ].
  split; [ | now repeat split].
  unfold before, settings_of. intros ->.
  unfold Js.spread. now rewrite (right_id_L ∅ (∪)).
Qed.

(** C10. After a successful [applyRoleSetup] of a role whose config has
    a [healthChecks] key holding a list of URLs, the persisted
    configuration stores that list twice: as the top-level [healthChecks]
    field, and under [settings.healthChecks] with the value the role
    config has, because the whole config map is spread into the settings.
    Every key of the role's config appears in the settings with the
    role's value. *)
Theorem applyRoleSetup_healthChecks_stored_twice (h : Host) (w : World)
    (role : string) (manifest : RoleManifest) (d : RoleDefinition.t)
    (c : gmap string json) (v : json) (urls : list string)
    (r : RoleSetupResult.t) (w' : World) :
  fst (loadRolesManifest w) = Ok manifest ->
  manifest !! role = Some d ->
  RoleDefinition.config d = Some c ->
  c !! "healthChecks" = Some v ->
  as_string_array v = Some urls ->
  applyRoleSetup h role w = (Ok r, w') ->
  exists cfg settings,
    config_json (files w') = Some cfg /\
    AppneuralConfig.healthChecks cfg = Some urls /\
    AppneuralConfig.settings cfg = Some settings /\
    settings !! "healthChecks" = Some v /\
    forall k x, c !! k = Some x -> settings !! k = Some x.
Proof.
  intros Hm Hd Hc Hv Hu H.
  apply applyRoleSetup_Ok_inv in H
    as (m1 & d1 & t1 & Hm1 & Hg1 & _ & _ & Hcfg & _).
  rewrite Hm in Hm1. injection Hm1 as <-.
  rewrite (manifest_get_own _ _ _ Hd) in Hg1. injection Hg1 as <-.
  eexists. eexists. split; [exact Hcfg | ].
  cbn [next_config AppneuralConfig.healthChecks AppneuralConfig.settings].
  unfold config_healthChecks. rewrite Hc, Hv, Hu. cbn [Js.nullish].
  split; [reflexivity | ]. split; [reflexivity | ].
  assert (K : forall k x, c !! k = Some x ->
                Js.spread (settings_of (files w)) c !! k = Some x).
  { intros k x Hk. now rewrite spread_lookup, Hk. }
  split; [now apply K | exact K].
Qed.


(** C1 fails as stated when settings were persisted before: starting
    from a configuration whose settings hold [region], applying
    frontend-dev and then mobile-dev (both succeed) leaves settings that
    still hold [region], which the union of the two role configs does
    not. *)
Lemma applyRoleSetup_twice_not_union :
  let w := settled_workspace in
  let w1 := snd (applyRoleSetup calm_host "frontend-dev" w) in
  let w2 := snd (applyRoleSetup calm_host "mobile-dev" w1) in
  fst (loadRolesManifest w) = Ok DEFAULT_ROLES /\
  DEFAULT_ROLES !! "frontend-dev" = Some frontend_dev /\
  DEFAULT_ROLES !! "mobile-dev" = Some mobile_dev /\
  fst (applyRoleSetup calm_host "frontend-dev" w) =
    Ok (result_of "frontend-dev" frontend_dev) /\
  fst (applyRoleSetup calm_host "mobile-dev" w1) =
    Ok (result_of "mobile-dev" mobile_dev) /\
  settings_of (files w2) !! "region" = Some (JStr "eu") /\
  settings_of (files w2) <>
    Js.spread (RoleDefinition.config frontend_dev ?? ∅)
              (RoleDefinition.config mobile_dev ?? ∅).
Proof.
  cbv zeta.
  assert (R : settings_of (files (snd (applyRoleSetup calm_host "mobile-dev"
                (snd (applyRoleSetup calm_host "frontend-dev" settled_workspace)))))
              !! "region" = Some (JStr "eu")) by (vm_compute; reflexivity).
  assert (U : Js.spread (RoleDefinition.config frontend_dev ?? ∅)
                        (RoleDefinition.config mobile_dev ?? ∅)
              !! "region" = None) by (vm_compute; reflexivity).
  split; [vm_compute; reflexivity | ].
  split; [vm_compute; reflexivity | ].
  split; [vm_compute; reflexivity | ].
  split; [vm_compute; reflexivity | ].
  split; [vm_compute; reflexivity | ].
  split; [exact R | ].
  intros E. rewrite E, U in R. discriminate R.
Qed.


Lemma applyRoleSetup_twice_witness :
  let w := settled_workspace in
  let r1 := applyRoleSetup calm_host "frontend-dev" w in
  let r2 := applyRoleSetup calm_host "mobile-dev" (snd r1) in
  exists cfg settings,
    config_json (files (snd r2)) = Some cfg /\
    AppneuralConfig.settings cfg = Some settings /\
    settings !! "region" = Some (JStr "eu") /\
    settings !! "stack" = Some (JStr "react-native") /\
    AppneuralConfig.templates cfg = Some ["react-page/mobile"].
Proof.
  cbv zeta.
  destruct (applyRoleSetup_twice calm_host settled_workspace
              "frontend-dev" "mobile-dev" DEFAULT_ROLES frontend_dev mobile_dev
              (result_of "frontend-dev" frontend_dev)
              (result_of "mobile-dev" mobile_dev)
              (snd (applyRoleSetup calm_host "frontend-dev" settled_workspace))
              (snd (applyRoleSetup calm_host "mobile-dev"
                      (snd (applyRoleSetup calm_host "frontend-dev" settled_workspace)))))
    as (cfg & settings & Hc & Hs & _ & Hk & _ & _ & Ht & _).
  - vm_compute; reflexivity.
  - vm_compute; reflexivity.
  - vm_compute; reflexivity.
  - vm_compute; reflexivity.
  - vm_compute; reflexivity.
  - exists cfg, settings. split; [exact Hc | ]. split; [exact Hs | ].
    split; [rewrite Hk; vm_compute; reflexivity | ].
    split; [rewrite Hk; vm_compute; reflexivity | exact Ht].
Defined.


Lemma applyRoleSetup_default_identity_witness :
  sources_present (files fresh_workspace) backend_dev /\
  exists r,
    fst (applyRoleSetup calm_host "backend-dev" fresh_workspace) = Ok r /\
    RoleSetupResult.templates r =
      [ "nest-service/basic"; "dto-crud/basic"; "rest-api-module/core" ].
Proof.
  assert (P : sources_present (files fresh_workspace) backend_dev).
  { split; intros k Hk; cbn in Hk;
      repeat (apply elem_of_cons in Hk; destruct Hk as [-> | Hk];
              [vm_compute; eauto | ]);
      now apply elem_of_nil in Hk. }
  split; [exact P | ].
  destruct (applyRoleSetup_default_identity calm_host fresh_workspace
              "backend-dev" backend_dev)
    as (r & Hr & _ & _ & Ht & _).
  - vm_compute; reflexivity.
  - vm_compute; reflexivity.
  - exact P.
  - exists r. split; [exact Hr | ]. now injection Ht.
Defined.


Lemma applyRoleSetup_inherited_name_witness :
  DEFAULT_ROLES !! "toString" = None /\
  exists w',
    applyRoleSetup calm_host "toString" fresh_workspace =
      (Ok (RoleSetupResult.mk "toString" [] [] [] []), w') /\
    config_json (files fresh_workspace) = None /\
    (exists c, config_json (files w') = Some c /\
               AppneuralConfig.role c = Some "toString").
Proof.
  split; [vm_compute; reflexivity | ].
  destruct (applyRoleSetup_inherited_name calm_host fresh_workspace
              DEFAULT_ROLES "toString")
    as (w' & new & c & t & Hr & _ & _ & _ & Hc & Hrole & _).
  - vm_compute; reflexivity.
  - vm_compute; reflexivity.
  - vm_compute; reflexivity.
  - exists w'. split; [exact Hr | ]. split; [reflexivity | eauto].
Defined.


Lemma applyRoleSetup_healthChecks_stored_twice_witness :
  let r := applyRoleSetup calm_host "devops" fresh_workspace in
  exists cfg settings,
    config_json (files (snd r)) = Some cfg /\
    AppneuralConfig.healthChecks cfg = Some DEFAULT_HEALTH_ENDPOINTS /\
    AppneuralConfig.settings cfg = Some settings /\
    settings !! "healthChecks" = Some health_endpoints_json /\
    settings !! "stack" = Some (JStr "devops").
Proof.
  cbv zeta.
  destruct (applyRoleSetup_healthChecks_stored_twice calm_host fresh_workspace
              "devops" DEFAULT_ROLES devops
              {[ "stack" := JStr "devops"; "healthChecks" := health_endpoints_json ]}
              health_endpoints_json DEFAULT_HEALTH_ENDPOINTS
              (result_of "devops" devops)
              (snd (applyRoleSetup calm_host "devops" fresh_workspace)))
    as (cfg & settings & Hc & Hh & Hs & Hv & Hk).
  - vm_compute; reflexivity.
  - vm_compute; reflexivity.
  - reflexivity.
  - vm_compute; reflexivity.
  - reflexivity.
  - vm_compute; reflexivity.
  - exists cfg, settings. repeat split; try assumption.
    apply Hk. vm_compute; reflexivity.
Defined.

(** ** Role setup that fails *)

Lemma sources_present_not_missing f d :
  sources_present f d -> source_missing f d -> False.
Proof.
  intros [HT HS] [(k & Hin & Hk) | (k & Hin & Hk)].
  - specialize (HT k Hin). rewrite Hk in HT. now destruct HT.
  - specialize (HS k Hin). rewrite Hk in HS. now destruct HS.
Qed.

Lemma load_events_spare_config f :
  forallb spares_config (load_events f) = true /\
  Forall (copy_in_place f) (load_events f).
Proof.
  unfold load_events. destruct (roles_yaml f); split; repeat constructor.
Qed.

(** Up to the point where the configuration is read, role setup keeps
    the inputs, touches the configuration file with no event, and leaves
    every copy it made in place, whether it goes on or throws. *)
Lemma applyRoleSetup_Throw_copying h role w e w' :
  applyRoleSetup h role w = (Throw e, w') -> copying w w'.
Proof.
  destruct w as [fs tr]. rewrite applyRoleSetup_run. cbv zeta.
  assert (L : copying {| files := fs; trace := tr |}
                      {| files := fs; trace := tr ++ load_events fs |}).
  { apply copying_events; apply load_events_spare_config. }
  destruct (loaded_manifest fs) as [manifest|e0]; [ | now intros [= <- <-]].
  destruct (manifest_get manifest role) as [d|]; [ | now intros [= <- <-]].
  pose proof (copying_copy_sources role d {| files := fs; trace := tr ++ load_events fs |}) as HC.
  destruct (copy_sources role d _) as [[[]|e1] [fs2 tr2]]; cbn [snd] in HC.
  - rewrite persist_run. discriminate.
  - intros [= <- <-]. etransitivity; eassumption.
Qed.

(** C5. During [applyRoleSetup] of a role present in the manifest, when
    a listed template directory or a listed snippet file does not exist,
    the call fails with a validation error; the persisted configuration
    is exactly what it was, and no event of the call probes, reads or
    writes the configuration file.  The copies made before the failing
    entry are not rolled back: every copy recorded in the trace of the
    call still has its destination holding its source when the call
    returns. *)
Theorem applyRoleSetup_missing_source (h : Host) (w : World) (role : string)
    (manifest : RoleManifest) (d : RoleDefinition.t) :
  fst (loadRolesManifest w) = Ok manifest ->
  manifest !! role = Some d ->
  source_missing (files w) d ->
  is_validation_error (fst (applyRoleSetup h role w)) /\
  config_json (files (snd (applyRoleSetup h role w))) = config_json (files w) /\
  exists new,
    trace (snd (applyRoleSetup h role w)) = (trace w ++ new)%list /\
    forallb spares_config new = true /\
    Forall (copy_in_place (files (snd (applyRoleSetup h role w)))) new.
Proof.
  intros Hm Hd Hmiss.
  destruct (applyRoleSetup h role w) as [[r|e] w'] eqn:E; cbn [fst snd].
  - apply applyRoleSetup_Ok_inv in E as (m1 & d1 & _ & Hm1 & Hg1 & Hp & _).
    rewrite Hm in Hm1. injection Hm1 as <-.
    rewrite (manifest_get_own _ _ _ Hd) in Hg1. injection Hg1 as <-.
    destruct (sources_present_not_missing _ _ Hp Hmiss).
  - pose proof (applyRoleSetup_Throw_copying _ _ _ _ _ E) as [[[_ Hc _ _ _ _ _] _ _] Hn].
    split; [ | split; [exact Hc | exact Hn]].
    destruct w as [fs tr]. rewrite applyRoleSetup_run in E.
    rewrite loadRolesManifest_run in Hm. cbn [fst files] in *. cbv zeta in E.
    rewrite Hm, (manifest_get_own _ _ _ Hd) in E.
    pose proof (copy_sources_result role d {| files := fs; trace := tr ++ load_events fs |}) as HR.
    destruct (copy_sources role d _) as [[[]|e1] [fs2 tr2]]; cbn [fst files] in HR.
    + rewrite persist_run in E. discriminate.
    + injection E as <- <-.
      destruct HR as [[_ [=]] | [_ (m & c & [= ->])]]. red; eauto.
Qed.

Lemma applyRoleSetup_missing_source_witness :
  let w :=
    {| files :=
         {| roles_yaml := None; config_json := None;
            env_example := None; dot_env := None;
            pnpm_lock := false; yarn_lock := false;
            internal_templates := {[ "nest-service/basic" := "tree" ]};
            internal_snippets := ∅;
            global_template_root := false; global_snippet_root := false;
            global_templates := ∅; global_snippets := ∅ |};
       trace := [] |} in
  source_missing (files w) backend_dev /\
  is_validation_error (fst (applyRoleSetup calm_host "backend-dev" w)) /\
  config_json (files (snd (applyRoleSetup calm_host "backend-dev" w))) = None /\
  global_templates (files (snd (applyRoleSetup calm_host "backend-dev" w)))
    !! ("backend-dev", "nest-service/basic") = Some "tree".
Proof.
  cbv zeta.
  match goal with |- source_missing (files ?w0) _ /\ _ => set (w := w0) end.
  assert (M : source_missing (files w) backend_dev).
  { left. exists "dto-crud/basic". split; [ | vm_compute; reflexivity].
    cbn. apply elem_of_cons. right. apply elem_of_cons. now left. }
  split; [exact M | ].
  destruct (applyRoleSetup_missing_source calm_host w "backend-dev"
              DEFAULT_ROLES backend_dev) as (HV & HC & _).
  - vm_compute; reflexivity.
  - vm_compute; reflexivity.
  - exact M.
  - split; [exact HV | ]. split; [exact HC | ]. vm_compute; reflexivity.
Defined.

(** ** Local environment setup, step by step *)

Lemma execa_run h c args s fs tr :
  execa h c args s {| files := fs; trace := tr |} =
  (if execa_exit0 h (List.length tr) c args then Ok tt
   else Throw (ExecaError c args),
   {| files := fs;
      trace := tr ++ [EExeca c args s (execa_exit0 h (List.length tr) c args)] |}).
Proof.
  unfold execa. rewrite bind_run. unfold tick at 1. cbv beta iota. cbn [trace].
  mrun emit_run. now destruct (execa_exit0 h (List.length tr) c args).
Qed.

Lemma runScriptIfPresent_run h manager script fs tr :
  runScriptIfPresent h manager script {| files := fs; trace := tr |} =
  (Ok (script_exit0 h manager script (List.length tr)),
   {| files := fs; trace := tr ++ script_events h manager script (List.length tr) |}).
Proof.
  unfold runScriptIfPresent, try_catch, script_events, script_exit0.
  destruct manager; cbn [script_command fst snd];
    rewrite bind_run, execa_run;
    destruct (execa_exit0 h (List.length tr) _ _); cbv beta iota;
    rewrite ?ret_run; try reflexivity;
    unfold logger; mrun emit_run; rewrite ret_run, <- app_assoc; reflexivity.
Qed.

Lemma performHealthChecks_run' h fs tr :
  performHealthChecks h {| files := fs; trace := tr |} =
  (Ok (health_entries h fs (List.length tr)),
   {| files := fs; trace := tr ++ health_events h fs (List.length tr) |}).
Proof. apply performHealthChecks_run. Qed.

Lemma runLocalEnvironmentSetup_run h w :
  runLocalEnvironmentSetup h w =
  match provision h w with
  | (Ok (manager, envCreated, services), w1) =>
      after_provision h manager envCreated services (files w1) (trace w1)
  | (Throw e, w1) => (Throw e, w1)
  end.
Proof.
  unfold runLocalEnvironmentSetup, provision.
  rewrite !(bind_run (for_of _ _)).
  destruct (for_of REQUIRED_TOOLS (verify_tool h) w) as [[[]|e] w1]; [ | reflexivity].
  rewrite !(bind_run (verifyDockerCompose h)).
  destruct (verifyDockerCompose h w1) as [[compose|e] w2]; [ | reflexivity].
  rewrite !(bind_run (detectPackageManager h)).
  destruct (detectPackageManager h w2) as [[manager|e] w3]; [ | reflexivity].
  rewrite !(bind_run (installDependencies h manager)).
  destruct (installDependencies h manager w3) as [[[]|e] w4]; [ | reflexivity].
  rewrite !(bind_run (generateEnvFile h)).
  destruct (generateEnvFile h w4) as [[envCreated|e] w5]; [ | reflexivity].
  rewrite !(bind_run (startDockerServices h compose)).
  destruct (startDockerServices h compose w5) as [[services|e] [fs6 tr6]]; [ | reflexivity].
  rewrite ret_run. cbv beta iota.
  mrun runScriptIfPresent_run. mrun runScriptIfPresent_run.
  mrun performHealthChecks_run'. rewrite ret_run.
  unfold after_provision. cbn [files trace].
  rewrite !length_app, <- !app_assoc. reflexivity.
Qed.
(** Decomposes a goal [respects R m] along the structure of [m]. *)
Ltac respects_go :=
  repeat match goal with
  | |- PreOrder _ => apply _
  | |- forall _, _ => intros ?
  | |- respects _ (bind _ _) => apply respects_bind
  | |- respects _ (ret _) => apply respects_ret
  | |- respects _ (throw _) => apply respects_throw
  | |- respects _ tick => apply respects_tick
  | |- respects _ get_files => apply respects_get_files
  | |- respects _ (try_catch _ _) => apply respects_try_catch
  | |- respects _ (for_of _ _) => apply respects_for_of
  | |- respects _ (emit ?e) =>
      match e with context [match ?x with _ => _ end] => destruct x end
  | |- respects _ (emit _) => apply respects_emit; [ | reflexivity]
  | |- respects _ (modify_files _) => apply respects_modify_files; [ | reflexivity]
  | |- respects _ (if ?b then _ else _) => destruct b
  | |- respects _ (match ?x with _ => _ end) => destruct x
  end.

Lemma provision_step h :
  respects (step no_script_run same_config) (provision h).
Proof.
  unfold provision. cbn [for_of REQUIRED_TOOLS].
  unfold verify_tool, verifyDockerCompose, detectPackageManager,
    installDependencies, generateEnvFile, startDockerServices,
    isCommandAvailable, createSecret, randomBytes, execa, pathExists, logger.
  cbn [Tool.name Tool.args Tool.required Js.nullish].
  respects_go.
Qed.

Lemma provision_keeps_config h w :
  config_json (files (snd (provision h w))) = config_json (files w) /\
  exists new,
    trace (snd (provision h w)) = (trace w ++ new)%list /\
    forallb no_script_run new = true.
Proof. exact (provision_step h w). Qed.

Lemma runLocalEnvironmentSetup_keeps_config h w :
  config_json (files (snd (runLocalEnvironmentSetup h w))) = config_json (files w).
Proof.
  rewrite runLocalEnvironmentSetup_run.
  destruct (provision_keeps_config h w) as [Hc _].
  destruct (provision h w) as [[[[manager envCreated] services]|e] w1];
    cbn [snd after_provision files] in *; exact Hc.
Qed.

Lemma fetch_events_no_execa endpoints outcomes :
  forallb (fun e => negb (is_execa e)) (zip_with fetch_event endpoints outcomes) = true.
Proof.
  revert outcomes. induction endpoints as [|u us IH]; intros [|o os]; cbn; auto.
Qed.

Lemma health_events_no_execa h f t e :
  In e (health_events h f t) -> is_execa e = false.
Proof.
  unfold health_events. cbv zeta. rewrite in_app_iff. intros [H|H].
  - unfold read_config_events in H. destruct (config_json f); cbn in H;
      intuition (subst; reflexivity).
  - pose proof (fetch_events_no_execa
                  (health_endpoints (config_json f ?? AppneuralConfig.empty))
                  (outcomes_from h (t + List.length (read_config_events f))
                     (health_endpoints (config_json f ?? AppneuralConfig.empty)))) as F.
    rewrite forallb_forall in F. specialize (F e H).
    now destruct (is_execa e).
Qed.

Lemma no_script_run_In new e :
  forallb no_script_run new = true -> In e new -> is_script_run e = false.
Proof.
  intros F H. rewrite forallb_forall in F. specialize (F e H).
  unfold no_script_run in F. now destruct (is_script_run e).
Qed.

Lemma script_command_shape manager :
  exists prog rest,
    forall script, script_command manager script = (prog, "run" :: script :: rest).
Proof. destruct manager; eexists; eexists; intros script; reflexivity. Qed.

(** C9. When the sub-process that runs the [migrate] script fails,
    [runLocalEnvironmentSetup] does not abort: it returns a result whose
    [migrationsExecuted] is false; the failure is followed in the trace
    by its warning, then by the run of the [seed] script, whose exit
    status is [seedersExecuted], and then by the health checks, whose
    entries are the [healthChecks] of the result.  In the same way, when
    the run of the [seed] script fails, the result has [seedersExecuted]
    false and the health checks still follow. *)
Theorem runLocalEnvironmentSetup_script_failure (h : Host) (w : World)
    (new : list Event) (c : string) (rest : list string) :
  trace (snd (runLocalEnvironmentSetup h w)) = (trace w ++ new)%list ->
  (In (EExeca c ("run" :: "migrate" :: rest) inherit false) new ->
   exists r before seeded t,
     fst (runLocalEnvironmentSetup h w) = Ok r /\
     LocalSetupResult.migrationsExecuted r = false /\
     LocalSetupResult.seedersExecuted r = seeded /\
     LocalSetupResult.healthChecks r =
       health_entries h (files (snd (runLocalEnvironmentSetup h w))) t /\
     new = (before
            ++ [EExeca c ("run" :: "migrate" :: rest) inherit false;
                script_warning "migrate"]
            ++ EExeca c ("run" :: "seed" :: rest) inherit seeded
               :: (if seeded then [] else [script_warning "seed"])
            ++ health_events h (files (snd (runLocalEnvironmentSetup h w))) t)%list) /\
  (In (EExeca c ("run" :: "seed" :: rest) inherit false) new ->
   exists r before t,
     fst (runLocalEnvironmentSetup h w) = Ok r /\
     LocalSetupResult.seedersExecuted r = false /\
     LocalSetupResult.healthChecks r =
       health_entries h (files (snd (runLocalEnvironmentSetup h w))) t /\
     new = (before
            ++ [EExeca c ("run" :: "seed" :: rest) inherit false;
                script_warning "seed"]
            ++ health_events h (files (snd (runLocalEnvironmentSetup h w))) t)%list).
Proof.
  rewrite runLocalEnvironmentSetup_run.
  destruct (provision_keeps_config h w) as [_ (pre & Hpre & Hno)].
  destruct (provision h w) as [[[[manager envCreated] services]|e] [fs1 tr1]];
    cbn [fst snd files trace after_provision] in *.
  2:{ rewrite Hpre. intros E%app_inv_head. subst new.
      split; intros H; apply (no_script_run_In _ _ Hno) in H; discriminate. }
  subst tr1.
  set (t1 := List.length (trace w ++ pre)).
  set (b1 := script_exit0 h manager "migrate" t1).
  set (t2 := t1 + List.length (script_events h manager "migrate" t1)).
  set (b2 := script_exit0 h manager "seed" t2).
  set (t3 := t2 + List.length (script_events h manager "seed" t2)).
  unfold script_events. fold b1. fold b2.
  rewrite <- app_assoc. intros E%app_inv_head. subst new.
  assert (HH : forall e, In e (health_events h fs1 t3) -> is_execa e = false)
    by apply health_events_no_execa.
  assert (HP : forall e, In e pre -> is_script_run e = false)
    by (intros e; apply no_script_run_In; exact Hno).
  assert (S1 : forall e, In e (EExeca (fst (script_command manager "migrate"))
                                (snd (script_command manager "migrate")) inherit b1
                              :: (if b1 then [] else [script_warning "migrate"])) ->
                 e = EExeca (fst (script_command manager "migrate"))
                       (snd (script_command manager "migrate")) inherit b1 \/
                 (b1 = false /\ e = script_warning "migrate")).
  { intros e [<- | H]; [now left | ]. destruct b1; [destruct H | ].
    destruct H as [<- | []]. now right. }
  assert (S2 : forall e, In e (EExeca (fst (script_command manager "seed"))
                                (snd (script_command manager "seed")) inherit b2
                              :: (if b2 then [] else [script_warning "seed"])) ->
                 e = EExeca (fst (script_command manager "seed"))
                       (snd (script_command manager "seed")) inherit b2 \/
                 (b2 = false /\ e = script_warning "seed")).
  { intros e [<- | H]; [now left | ]. destruct b2; [destruct H | ].
    destruct H as [<- | []]. now right. }
  destruct (script_command_shape manager) as (prog & rest0 & Hsc).
  rewrite !Hsc in *. cbn [fst snd] in *.
  unfold script_warning in S1, S2.
  split; intros H; rewrite !in_app_iff in H.
  - destruct H as [H | [H | [H | H]]].
    + apply HP in H. discriminate H.
    + apply S1 in H. destruct H as [H | [_ H]]; [ | discriminate H].
      injection H as <- <- Hb.
      exists (LocalSetupResult.mk manager envCreated services b1 b2
                (health_entries h fs1 t3)), pre, b2, t3.
      split; [reflexivity | ]. split; [symmetry; exact Hb | ].
      split; [reflexivity | ]. split; [reflexivity | ].
      rewrite <- Hb. reflexivity.
    + apply S2 in H. destruct H as [H | [_ H]]; discriminate H.
    + apply HH in H. discriminate H.
  - destruct H as [H | [H | [H | H]]].
    + apply HP in H. discriminate H.
    + apply S1 in H. destruct H as [H | [_ H]]; discriminate H.
    + apply S2 in H. destruct H as [H | [_ H]]; [ | discriminate H].
      injection H as <- <- Hb.
      exists (LocalSetupResult.mk manager envCreated services b1 b2
                (health_entries h fs1 t3)),
             (pre ++ EExeca c ("run" :: "migrate" :: rest) inherit b1
                     :: (if b1 then [] else [script_warning "migrate"]))%list, t3.
      split; [reflexivity | ]. split; [symmetry; exact Hb | ].
      split; [reflexivity | ].
      rewrite <- Hb, <- !app_assoc. reflexivity.
    + apply HH in H. discriminate H.
Qed.
Lemma runLocalEnvironmentSetup_script_failure_witness :
  let out := runLocalEnvironmentSetup migrate_fails_host fresh_workspace in
  In (EExeca "npm" ["run"; "migrate"; "--if-present"] inherit false)
     (trace (snd out)) /\
  exists r,
    fst out = Ok r /\
    LocalSetupResult.migrationsExecuted r = false /\
    LocalSetupResult.seedersExecuted r = true /\
    List.length (LocalSetupResult.healthChecks r) = 3.
Proof.
  cbv zeta.
  assert (I : In (EExeca "npm" ["run"; "migrate"; "--if-present"] inherit false)
                 (trace (snd (runLocalEnvironmentSetup migrate_fails_host
                                fresh_workspace)))).
  { vm_compute. repeat (first [left; reflexivity | right]). }
  split; [exact I | ].
  destruct (runLocalEnvironmentSetup_script_failure migrate_fails_host
              fresh_workspace
              (trace (snd (runLocalEnvironmentSetup migrate_fails_host
                             fresh_workspace)))
              "npm" ["--if-present"] eq_refl) as [HM _].
  destruct (HM I) as (r & before & seeded & t & Hr & Hm & Hs & Hh & Hn).
  exists r. split; [exact Hr | ]. split; [exact Hm | ].
  assert (E : fst (runLocalEnvironmentSetup migrate_fails_host fresh_workspace)
              = Ok (LocalSetupResult.mk npm false ["db"; "redis"; "mq"] false true
                      (map (fun u => HealthCheck.mk u false None)
                           DEFAULT_HEALTH_ENDPOINTS)))
    by (vm_compute; reflexivity).
  rewrite E in Hr. injection Hr as <-. split; reflexivity.
Defined.

(** ** History *)

Lemma applyRoleSetup_history h role w :
  exists added,
    history_of (files (snd (applyRoleSetup h role w))) =
      (history_of (files w) ++ added)%list /\
    map HistoryEntry.role added =
      if succeeded (fst (applyRoleSetup h role w)) then [role] else [].
Proof.
  destruct (applyRoleSetup h role w) as [[r|e] w'] eqn:E; cbn [fst snd succeeded].
  - apply applyRoleSetup_Ok_inv in E as (m & d & t & _ & _ & _ & _ & Hc & _).
    exists [HistoryEntry.mk role (date_iso h t)]. split; [ | reflexivity].
    unfold history_of at 1. rewrite Hc. reflexivity.
  - apply applyRoleSetup_Throw_copying in E as [[[_ Hc _ _ _ _ _] _ _] _].
    exists []. unfold history_of. rewrite Hc, app_nil_r. now split.
Qed.

Lemma perform_history h op w :
  exists added,
    history_of (files (snd (perform h op w))) =
      (history_of (files w) ++ added)%list /\
    map HistoryEntry.role added = applied_roles [op] [fst (perform h op w)].
Proof.
  destruct op as [role|]; cbn [perform fst snd applied_roles].
  - destruct (applyRoleSetup_history h role w) as (added & H1 & H2).
    exists added. split; [exact H1 | ].
    rewrite H2. now destruct (succeeded (fst (applyRoleSetup h role w))).
  - exists []. unfold history_of.
    rewrite runLocalEnvironmentSetup_keeps_config, app_nil_r.
    split; [reflexivity | now destruct (succeeded (fst (runLocalEnvironmentSetup h w)))].
Qed.

Lemma perform_all_history h ops : forall w,
  exists added,
    history_of (files (snd (perform_all h ops w))) =
      (history_of (files w) ++ added)%list /\
    map HistoryEntry.role added = applied_roles ops (fst (perform_all h ops w)).
Proof.
  induction ops as [|op ops IH]; intros w; cbn [perform_all fst snd].
  - exists []. now rewrite app_nil_r.
  - cbv zeta. cbn [fst snd].
    destruct (perform_history h op w) as (a1 & H1 & R1).
    destruct (IH (snd (perform h op w))) as (a2 & H2 & R2).
    exists (a1 ++ a2)%list. split.
    + now rewrite H2, H1, app_assoc.
    + rewrite map_app, R1, R2.
      destruct op as [role|]; cbn [applied_roles];
        destruct (fst (perform h _ w)); reflexivity.
Qed.

Lemma applied_roles_all_succeeded roles :
  applied_roles (map ApplyRole roles) (map (fun _ => true) roles) = roles.
Proof. induction roles as [|r rs IH]; cbn; [reflexivity | now rewrite IH]. Qed.

(** C2. The persisted history is append-only.  For every sequence of N
    [applyRoleSetup] invocations that all succeed, starting from an absent
    configuration file or from an empty configuration, the resulting
    history has exactly N entries and the roles of its entries are the
    roles of the invocations, in the order of the invocations.  And for
    every sequence of operations of the service, from any state and
    whether each succeeds or not, the resulting history is the history
    before followed by one entry per successful role setup, in order:
    no entry is removed or moved. *)
Theorem history_append_only (h : Host) :
  (forall (roles : list string) (w : World),
     config_json (files w) = None \/
     config_json (files w) = Some AppneuralConfig.empty ->
     fst (perform_all h (map ApplyRole roles) w) = map (fun _ => true) roles ->
     let history := history_of (files (snd (perform_all h (map ApplyRole roles) w))) in
     List.length history = List.length roles /\
     map HistoryEntry.role history = roles) /\
  (forall (ops : list Operation) (w : World),
     exists added,
       history_of (files (snd (perform_all h ops w))) =
         (history_of (files w) ++ added)%list /\
       map HistoryEntry.role added =
         applied_roles ops (fst (perform_all h ops w))).
Proof.
  split; [ | intros ops w; apply perform_all_history].
  intros roles w Hempty Hok. cbv zeta.
  destruct (perform_all_history h (map ApplyRole roles) w) as (added & H & R).
  assert (E : history_of (files w) = []).
  { unfold history_of. now destruct Hempty as [-> | ->]. }
  rewrite H, E, Hok, applied_roles_all_succeeded in *. cbn [app].
  split; [ | exact R].
  pose proof (f_equal List.length R) as L. now rewrite length_map in L.
Qed.

Lemma history_append_only_witness :
  let roles := ["frontend-dev"; "devops"; "frontend-dev"] in
  let out := perform_all calm_host (map ApplyRole roles) fresh_workspace in
  fst out = [true; true; true] /\
  List.length (history_of (files (snd out))) = 3 /\
  map HistoryEntry.role (history_of (files (snd out))) = roles.
Proof.
  cbv zeta.
  assert (S : fst (perform_all calm_host
                     (map ApplyRole ["frontend-dev"; "devops"; "frontend-dev"])
                     fresh_workspace) = [true; true; true])
    by (vm_compute; reflexivity).
  split; [exact S | ].
  destruct (history_append_only calm_host) as [H _].
  apply (H ["frontend-dev"; "devops"; "frontend-dev"] fresh_workspace).
  - left. reflexivity.
  - exact S.
Defined.

Lemma generateEnvFile_example_witness :
  let w :=
    {| files :=
         {| roles_yaml := None; config_json := None;
            env_example := Some ENV_EXAMPLE_TEXT; dot_env := None;
            pnpm_lock := false; yarn_lock := false;
            internal_templates := ∅; internal_snippets := ∅;
            global_template_root := false; global_snippet_root := false;
            global_templates := ∅; global_snippets := ∅ |};
       trace := [] |} in
  exists jwt key,
    hex64 jwt /\ hex64 key /\
    fst (generateEnvFile calm_host w) = Ok true /\
    dot_env (files (snd (generateEnvFile calm_host w))) =
      Some ("A=1" +:+ NL +:+ "B=2" +:+ NL +:+ "JWT_SECRET=" +:+ jwt +:+ NL
            +:+ "ENCRYPTION_KEY=" +:+ key).
Proof.
  cbv zeta.
  match goal with
  | |- context [generateEnvFile calm_host ?w0] =>
      destruct (generateEnvFile_example calm_host w0) as [H _]
  end.
  destruct (H eq_refl) as (jwt & key & Hj & Hk & Hr & Hd).
  exists jwt, key. split; [exact Hj | ]. split; [exact Hk | ].
  split; [exact Hr | ]. rewrite Hd. reflexivity.
Defined.

Lemma performHealthChecks_spec_witness :
  let w :=
    workspace
      (Some (AppneuralConfig.mk None None None None None None
               (Some ["http://localhost:3000/health"; "http://10.0.0.1/slow"])
               None None)) in
  let host :=
    {| execa_exit0 := fun _ _ _ => true;
       fetch_outcome := fun _ url _ =>
         if String.eqb url "http://localhost:3000/health"
         then Responded 200 else Rejected;
       random_byte := fun _ _ => Byte.x00;
       date_iso := fun _ => "2024-01-01T00:00:00.000Z";
       EOL := NL |} in
  fst (performHealthChecks host w) =
    Ok [ HealthCheck.mk "http://localhost:3000/health" true (Some 200%Z);
         HealthCheck.mk "http://10.0.0.1/slow" false None ].
Proof.
  cbv zeta.
  match goal with
  | |- fst (performHealthChecks ?h0 ?w0) = _ =>
      destruct (performHealthChecks_spec h0 w0) as (_ & _ & _ & _ & _ & _ & H)
  end.
  apply H; reflexivity.
Defined.

(** * Further properties *)

(** ** Role setup: rejection and failure *)

(** A role name that [manifest[role]] leaves undefined (neither a key of
    the loaded manifest nor a member of [Object.prototype]) is rejected
    with the validation error "role not found"; the file system is left
    exactly as it was and the only effects are those of loading the
    manifest, none of which writes. *)
Theorem applyRoleSetup_unknown_role (h : Host) (w : World)
    (manifest : RoleManifest) (role : string) :
  fst (loadRolesManifest w) = Ok manifest ->
  manifest !! role = None ->
  Js.on_prototype role = false ->
  fst (applyRoleSetup h role w) =
    Throw (ValidationError "APPNEURAL role not found" [("role", role)]) /\
  files (snd (applyRoleSetup h role w)) = files w /\
  exists new,
    trace (snd (applyRoleSetup h role w)) = (trace w ++ new)%list /\
    forallb (fun e => negb (writes e)) new = true.
Proof.
  intros Hm Hk Hp.
  destruct (applyRoleSetup_undefined h role w manifest Hm
              (manifest_get_undefined _ _ Hk Hp)) as [-> Hw].
  cbn [fst snd files trace]. split; [reflexivity | ]. split; [reflexivity | ].
  exists (load_events (files w)). now split.
Qed.

Lemma applyRoleSetup_unknown_role_witness :
  fst (applyRoleSetup calm_host "qa-engineer" fresh_workspace) =
    Throw (ValidationError "APPNEURAL role not found" [("role", "qa-engineer")]) /\
  files (snd (applyRoleSetup calm_host "qa-engineer" fresh_workspace)) =
    files fresh_workspace.
Proof.
  destruct (applyRoleSetup_unknown_role calm_host fresh_workspace
              DEFAULT_ROLES "qa-engineer") as (H1 & H2 & _).
  - vm_compute; reflexivity.
  - vm_compute; reflexivity.
  - reflexivity.
  - now split.
Defined.

Lemma copy_sources_error role d w e :
  fst (copy_sources role d w) = Throw e ->
  (exists k, k ∈ RoleDefinition.templates d ?? [] /\
             e = ValidationError "APPNEURAL role template missing"
                   [("templateKey", k)]) \/
  (exists k, k ∈ RoleDefinition.snippets d ?? [] /\
             e = ValidationError "APPNEURAL snippet missing" [("snippetKey", k)]).
Proof.
  destruct w as [fs tr]. unfold copy_sources.
  mrun ensureDir_run. mrun ensureDir_run. rewrite bind_run.
  match goal with
  | |- context [for_of _ (copyTemplateToGlobal role) {| files := ?f; trace := ?t |}] =>
      pose proof (copy_templates_result role (RoleDefinition.templates d ?? []) f t) as HT
  end.
  cbv zeta in HT.
  destruct (for_of _ (copyTemplateToGlobal role) _) as [[[]|e1] [fs2 tr2]];
    cbn [fst snd] in *.
  - pose proof (copy_snippets_result (RoleDefinition.snippets d ?? []) fs2 tr2) as HS.
    cbv zeta in HS. intros E. rewrite E in HS.
    destruct HS as [[_ [=]] | (k & Hin & _ & [= ->])]. right. eauto.
  - intros [= ->]. destruct HT as [[_ [=]] | (k & Hin & _ & [= ->])]. left. eauto.
Qed.

(** Whenever [applyRoleSetup] throws, the persisted configuration is
    exactly what it was before the call, and the error is one of four:
    the YAML parse error of the manifest, "role not found", "role
    template missing" or "snippet missing". *)
Theorem applyRoleSetup_failure (h : Host) (w : World) (role : string) (e : Error) :
  fst (applyRoleSetup h role w) = Throw e ->
  config_json (files (snd (applyRoleSetup h role w))) = config_json (files w) /\
  (e = YamlParseError \/
   e = ValidationError "APPNEURAL role not found" [("role", role)] \/
   (exists k, e = ValidationError "APPNEURAL role template missing"
                    [("templateKey", k)]) \/
   (exists k, e = ValidationError "APPNEURAL snippet missing"
                    [("snippetKey", k)])).
Proof.
  intros E. split.
  - destruct (applyRoleSetup h role w) as [[r|e0] w'] eqn:R; [discriminate | ].
    now apply applyRoleSetup_Throw_copying in R as [[[_ Hc _ _ _ _ _] _ _] _].
  - destruct w as [fs tr]. rewrite applyRoleSetup_run in E. cbv zeta in E.
    unfold loaded_manifest in E.
    destruct (roles_yaml fs) as [[|[roles|]]|];
      try (injection E as <-; now left);
      (destruct (manifest_get _ role) as [d|];
       [ | injection E as <-; right; now left]);
      (pose proof (copy_sources_error role d
                     {| files := fs; trace := tr ++ load_events fs |}) as HC;
       destruct (copy_sources role d _) as [[[]|e1] [fs2 tr2]];
       [rewrite persist_run in E; discriminate | ];
       injection E as <-; right; right;
       destruct (HC e1 eq_refl) as [(k & _ & ->) | (k & _ & ->)];
       [left | right]; eauto).
Qed.

Lemma applyRoleSetup_failure_witness :
  fst (applyRoleSetup calm_host "backend-dev" qa_only_workspace) =
    Throw (ValidationError "APPNEURAL role not found" [("role", "backend-dev")]) /\
  config_json (files (snd (applyRoleSetup calm_host "backend-dev" qa_only_workspace)))
    = None.
Proof.
  assert (E : fst (applyRoleSetup calm_host "backend-dev" qa_only_workspace) =
              Throw (ValidationError "APPNEURAL role not found"
                       [("role", "backend-dev")]))
    by (vm_compute; reflexivity).
  split; [exact E | ].
  now destruct (applyRoleSetup_failure calm_host qa_only_workspace
                  "backend-dev" _ E) as [-> _].
Defined.

(** ** Role setup: the manifest in force *)

(** A non-empty [roles] mapping in [appneural.roles.yaml] replaces the
    built-in roles, it is not merged with them: [applyRoleSetup] of a
    built-in role that the file does not define fails with "role not
    found" and leaves the file system as it was. *)
Theorem user_manifest_replaces_defaults (h : Host) (w : World)
    (roles : RoleManifest) (role : string) (d : RoleDefinition.t) :
  roles_yaml (files w) = Some (Document (Some roles)) ->
  roles <> ∅ ->
  DEFAULT_ROLES !! role = Some d ->
  roles !! role = None ->
  fst (loadRolesManifest w) = Ok roles /\
  fst (applyRoleSetup h role w) =
    Throw (ValidationError "APPNEURAL role not found" [("role", role)]) /\
  files (snd (applyRoleSetup h role w)) = files w.
Proof.
  intros Hy Hne Hd Hk.
  assert (Hm : fst (loadRolesManifest w) = Ok roles).
  { destruct w as [fs tr]. rewrite loadRolesManifest_run. cbn [fst files] in *.
    unfold loaded_manifest. rewrite Hy. unfold Js.no_keys.
    now rewrite bool_decide_eq_false_2. }
  assert (Hp : Js.on_prototype role = false).
  { apply DEFAULT_ROLES_inv in Hd. unfold DEFAULT_ROLES_LIST in Hd.
    repeat (apply elem_of_cons in Hd; destruct Hd as [[= -> _] | Hd];
            [reflexivity | ]).
    now apply elem_of_nil in Hd. }
  split; [exact Hm | ].
  destruct (applyRoleSetup_undefined h role w roles Hm
              (manifest_get_undefined _ _ Hk Hp)) as [-> _].
  now split.
Qed.

Lemma user_manifest_replaces_defaults_witness :
  fst (applyRoleSetup calm_host "devops" qa_only_workspace) =
    Throw (ValidationError "APPNEURAL role not found" [("role", "devops")]).
Proof.
  destruct (user_manifest_replaces_defaults calm_host qa_only_workspace
              {[ "qa" := RoleDefinition.mk (Some "quality") None None None None None ]}
              "devops" devops) as (_ & H & _).
  - reflexivity.
  - intros E. apply (f_equal (fun m => m !! "qa")) in E.
    rewrite lookup_singleton_eq, lookup_empty in E. discriminate E.
  - vm_compute; reflexivity.
  - vm_compute; reflexivity.
  - exact H.
Defined.

(** A roles file without a [roles] mapping, or with an empty one, falls
    back to the built-in roles; a file that does not parse makes
    [applyRoleSetup] throw the parse error with the file system left as it
    was. *)
Theorem manifest_fallback_and_parse_error (h : Host) (w : World) (role : string) :
  (roles_yaml (files w) = None \/
   roles_yaml (files w) = Some (Document None) \/
   roles_yaml (files w) = Some (Document (Some ∅)) ->
   fst (loadRolesManifest w) = Ok DEFAULT_ROLES) /\
  (roles_yaml (files w) = Some Malformed ->
   fst (applyRoleSetup h role w) = Throw YamlParseError /\
   files (snd (applyRoleSetup h role w)) = files w).
Proof.
  destruct w as [fs tr]. cbn [files]. split.
  - rewrite loadRolesManifest_run. cbn [fst]. unfold loaded_manifest.
    intros [-> | [-> | ->]]; reflexivity.
  - intros Hy. rewrite applyRoleSetup_run. cbv zeta. unfold loaded_manifest.
    rewrite Hy. now split.
Qed.

Lemma manifest_fallback_and_parse_error_witness :
  fst (loadRolesManifest fresh_workspace) = Ok DEFAULT_ROLES.
Proof.
  destruct (manifest_fallback_and_parse_error calm_host fresh_workspace "devops")
    as [H _].
  apply H. now left.
Defined.

(** ** Role setup: composition *)

Lemma loadRolesManifest_same_roles w w' :
  roles_yaml (files w') = roles_yaml (files w) ->
  fst (loadRolesManifest w') = fst (loadRolesManifest w).
Proof.
  destruct w as [fs tr], w' as [fs' tr']. cbn [files]. intros E.
  rewrite !loadRolesManifest_run. cbn [fst]. unfold loaded_manifest. now rewrite E.
Qed.

(** Applying the same role twice in a row changes nothing but the
    history and the time stamp: the second call returns what the first
    returned, and the role, shortcuts, instructions, templates, snippets,
    settings and health checks it persists are those the first
    persisted; the history gains one more entry for the role. *)
Theorem applyRoleSetup_again (h : Host) (w w1 w2 : World) (role : string)
    (r1 r2 : RoleSetupResult.t) :
  applyRoleSetup h role w = (Ok r1, w1) ->
  applyRoleSetup h role w1 = (Ok r2, w2) ->
  r2 = r1 /\
  exists c1 c2 appliedAt,
    config_json (files w1) = Some c1 /\
    config_json (files w2) = Some c2 /\
    AppneuralConfig.role c2 = AppneuralConfig.role c1 /\
    AppneuralConfig.shortcuts c2 = AppneuralConfig.shortcuts c1 /\
    AppneuralConfig.instructions c2 = AppneuralConfig.instructions c1 /\
    AppneuralConfig.templates c2 = AppneuralConfig.templates c1 /\
    AppneuralConfig.snippets c2 = AppneuralConfig.snippets c1 /\
    AppneuralConfig.settings c2 = AppneuralConfig.settings c1 /\
    AppneuralConfig.healthChecks c2 = AppneuralConfig.healthChecks c1 /\
    AppneuralConfig.history c2 =
      Some ((AppneuralConfig.history c1 ?? [])
            ++ [HistoryEntry.mk role appliedAt])%list.
Proof.
  intros H1 H2.
  apply applyRoleSetup_Ok_inv in H1
    as (m1 & d1 & t1 & Hm1 & Hg1 & _ & -> & Hc1 & Hr1 & _).
  apply applyRoleSetup_Ok_inv in H2
    as (m2 & d2 & t2 & Hm2 & Hg2 & _ & -> & Hc2 & _).
  rewrite (loadRolesManifest_same_roles _ _ Hr1), Hm1 in Hm2.
  injection Hm2 as <-. rewrite Hg1 in Hg2. injection Hg2 as <-.
  split; [reflexivity | ].
  rewrite Hc1 in Hc2. cbn [Js.nullish] in Hc2.
  eexists. eexists. exists (date_iso h t2).
  split; [exact Hc1 | ]. split; [exact Hc2 | ].
  cbn [next_config AppneuralConfig.role AppneuralConfig.shortcuts
       AppneuralConfig.instructions AppneuralConfig.templates
       AppneuralConfig.snippets AppneuralConfig.settings
       AppneuralConfig.healthChecks AppneuralConfig.history Js.nullish].
  repeat (split; [reflexivity | ]).
  split.
  - f_equal. unfold Js.spread. apply map_eq. intros k.
    rewrite !lookup_union.
    destruct ((RoleDefinition.config d1 ?? ∅) !! k),
      ((AppneuralConfig.settings
          (config_json (files w) ?? AppneuralConfig.empty) ?? ∅) !! k);
      reflexivity.
  - split; [ | reflexivity]. now destruct (config_healthChecks d1).
Qed.

Lemma applyRoleSetup_again_witness :
  let w1 := snd (applyRoleSetup calm_host "devops" fresh_workspace) in
  let w2 := snd (applyRoleSetup calm_host "devops" w1) in
  exists c1 c2,
    config_json (files w1) = Some c1 /\
    config_json (files w2) = Some c2 /\
    AppneuralConfig.settings c2 = AppneuralConfig.settings c1 /\
    AppneuralConfig.healthChecks c2 = AppneuralConfig.healthChecks c1.
Proof.
  cbv zeta.
  destruct (applyRoleSetup_again calm_host fresh_workspace
              (snd (applyRoleSetup calm_host "devops" fresh_workspace))
              (snd (applyRoleSetup calm_host "devops"
                      (snd (applyRoleSetup calm_host "devops" fresh_workspace))))
              "devops" (result_of "devops" devops) (result_of "devops" devops))
    as (_ & c1 & c2 & t & H1 & H2 & _ & _ & _ & _ & _ & Hs & Hh & _).
  - vm_compute; reflexivity.
  - vm_compute; reflexivity.
  - exists c1, c2. now repeat split.
Defined.

(** A role whose config has no [healthChecks] key, or has it null, leaves
    the persisted health checks as they were: a successful setup of such
    a role keeps the endpoints of the role applied before it. *)
Theorem applyRoleSetup_keeps_healthChecks (h : Host) (w w' : World)
    (role : string) (manifest : RoleManifest) (d : RoleDefinition.t)
    (r : RoleSetupResult.t) :
  fst (loadRolesManifest w) = Ok manifest ->
  manifest !! role = Some d ->
  (RoleDefinition.config d ?? ∅) !! "healthChecks" = None \/
  (RoleDefinition.config d ?? ∅) !! "healthChecks" = Some JNull ->
  applyRoleSetup h role w = (Ok r, w') ->
  exists cfg,
    config_json (files w') = Some cfg /\
    AppneuralConfig.healthChecks cfg =
      AppneuralConfig.healthChecks (config_json (files w) ?? AppneuralConfig.empty).
Proof.
  intros Hm Hd Hnone H.
  apply applyRoleSetup_Ok_inv in H
    as (m1 & d1 & t1 & Hm1 & Hg1 & _ & _ & Hcfg & _).
  rewrite Hm in Hm1. injection Hm1 as <-.
  rewrite (manifest_get_own _ _ _ Hd) in Hg1. injection Hg1 as <-.
  eexists. split; [exact Hcfg | ].
  cbn [next_config AppneuralConfig.healthChecks].
  assert (E : config_healthChecks d = None).
  { unfold config_healthChecks.
    destruct (RoleDefinition.config d) as [c|]; [ | reflexivity].
    cbn [Js.nullish] in Hnone. now destruct Hnone as [-> | ->]. }
  now rewrite E.
Qed.

Lemma applyRoleSetup_keeps_healthChecks_witness :
  let w1 := snd (applyRoleSetup calm_host "devops" fresh_workspace) in
  let w2 := snd (applyRoleSetup calm_host "frontend-dev" w1) in
  exists cfg,
    config_json (files w2) = Some cfg /\
    AppneuralConfig.role cfg = Some "frontend-dev" /\
    AppneuralConfig.healthChecks cfg = Some DEFAULT_HEALTH_ENDPOINTS.
Proof.
  cbv zeta.
  destruct (applyRoleSetup_keeps_healthChecks calm_host
              (snd (applyRoleSetup calm_host "devops" fresh_workspace))
              (snd (applyRoleSetup calm_host "frontend-dev"
                      (snd (applyRoleSetup calm_host "devops" fresh_workspace))))
              "frontend-dev" DEFAULT_ROLES frontend_dev
              (result_of "frontend-dev" frontend_dev))
    as (cfg & Hc & Hh).
  - vm_compute; reflexivity.
  - vm_compute; reflexivity.
  - left. vm_compute; reflexivity.
  - vm_compute; reflexivity.
  - exists cfg. split; [exact Hc | ].
    assert (R : config_json (files (snd (applyRoleSetup calm_host "frontend-dev"
                  (snd (applyRoleSetup calm_host "devops" fresh_workspace)))))
                ≫= AppneuralConfig.role = Some "frontend-dev")
      by (vm_compute; reflexivity).
    assert (P : AppneuralConfig.healthChecks
                  (config_json (files (snd (applyRoleSetup calm_host "devops"
                                              fresh_workspace)))
                   ?? AppneuralConfig.empty) = Some DEFAULT_HEALTH_ENDPOINTS)
      by (vm_compute; reflexivity).
    rewrite Hc in R. split; [exact R | ]. now rewrite Hh.
Defined.

Lemma outcomes_from_length h endpoints : forall t,
  List.length (outcomes_from h t endpoints) = List.length endpoints.
Proof. induction endpoints as [|u us IH]; intros t; cbn; [reflexivity | now rewrite IH]. Qed.

Lemma health_entries_urls endpoints : forall outcomes,
  List.length outcomes = List.length endpoints ->
  map HealthCheck.url (zip_with entry_of endpoints outcomes) = endpoints.
Proof.
  induction endpoints as [|u us IH]; intros [|o os] L; cbn in *; try discriminate;
    [reflexivity | ].
  rewrite IH by lia. now destruct o.
Qed.

(** After a successful setup of a role whose config carries a non-empty
    list of health-check URLs, [performHealthChecks] probes exactly those
    URLs, one entry each and in the order of the list, whatever host
    answers. *)
Theorem health_checks_follow_role (h h' : Host) (w w' : World) (role : string)
    (manifest : RoleManifest) (d : RoleDefinition.t) (c : gmap string json)
    (v : json) (urls : list string) (r : RoleSetupResult.t) :
  fst (loadRolesManifest w) = Ok manifest ->
  manifest !! role = Some d ->
  RoleDefinition.config d = Some c ->
  c !! "healthChecks" = Some v ->
  as_string_array v = Some urls ->
  urls <> [] ->
  applyRoleSetup h role w = (Ok r, w') ->
  exists entries,
    fst (performHealthChecks h' w') = Ok entries /\
    map HealthCheck.url entries = urls.
Proof.
  intros Hm Hd Hc Hv Hu Hne H.
  apply applyRoleSetup_Ok_inv in H
    as (m1 & d1 & t1 & Hm1 & Hg1 & _ & _ & Hcfg & _).
  rewrite Hm in Hm1. injection Hm1 as <-.
  rewrite (manifest_get_own _ _ _ Hd) in Hg1. injection Hg1 as <-.
  destruct w' as [fs' tr']. cbn [files] in Hcfg.
  rewrite performHealthChecks_run. cbn [fst]. eexists. split; [reflexivity | ].
  rewrite health_entries_urls by apply outcomes_from_length.
  rewrite Hcfg. cbn [Js.nullish]. unfold health_endpoints.
  cbn [next_config AppneuralConfig.healthChecks].
  unfold config_healthChecks. rewrite Hc, Hv, Hu.
  now destruct urls.
Qed.

Lemma health_checks_follow_role_witness :
  exists entries,
    fst (performHealthChecks migrate_fails_host
           (snd (applyRoleSetup calm_host "devops" fresh_workspace))) = Ok entries /\
    map HealthCheck.url entries = DEFAULT_HEALTH_ENDPOINTS.
Proof.
  apply (health_checks_follow_role calm_host migrate_fails_host fresh_workspace
           (snd (applyRoleSetup calm_host "devops" fresh_workspace))
           "devops" DEFAULT_ROLES devops
           {[ "stack" := JStr "devops"; "healthChecks" := health_endpoints_json ]}
           health_endpoints_json DEFAULT_HEALTH_ENDPOINTS
           (result_of "devops" devops)).
  - vm_compute; reflexivity.
  - vm_compute; reflexivity.
  - reflexivity.
  - vm_compute; reflexivity.
  - reflexivity.
  - discriminate.
  - vm_compute; reflexivity.
Defined.

(** ** Role setup: the copies *)

Lemma copy_templates_in_place role ks : forall fs tr w2,
  for_of ks (copyTemplateToGlobal role) {| files := fs; trace := tr |} = (Ok tt, w2) ->
  forall k, k ∈ ks ->
    is_Some (internal_templates fs !! k) /\
    global_templates (files w2) !! (role, k) = internal_templates fs !! k.
Proof.
  induction ks as [|k0 ks IH]; intros fs tr w2 H k Hk.
  - now apply elem_of_nil in Hk.
  - cbn [for_of] in H. rewrite bind_run, copyTemplateToGlobal_run in H.
    destruct (internal_templates fs !! k0) as [tree|] eqn:E; [ | discriminate].
    cbv beta iota in H.
    pose proof (respects_for_of copying ks (copyTemplateToGlobal role)
                  (copying_copyTemplateToGlobal role)
                  {| files := with_global_templates
                                (<[(role, k0):=tree]> (global_templates fs)) fs;
                     trace := tr ++ [EPathExists (INTERNAL_TEMPLATE k0);
                                     ECopyDirectory (INTERNAL_TEMPLATE k0)
                                       (GLOBAL_TEMPLATE role k0)] |}) as [K _].
    rewrite H in K. cbn [snd files] in K.
    destruct (decide (k ∈ ks)) as [Hin | Hnot].
    + exact (IH _ _ _ H k Hin).
    + apply elem_of_cons in Hk. destruct Hk as [-> | Hk]; [ | contradiction].
      rewrite E. split; [eauto | ].
      destruct K as [_ KT _]. rewrite <- E.
      apply (KT role k0); cbn [internal_templates global_templates
                                with_global_templates].
      * rewrite E. eauto.
      * now rewrite lookup_insert_eq, E.
Qed.

Lemma copy_snippets_in_place ks : forall fs tr w2,
  for_of ks copySnippetToGlobal {| files := fs; trace := tr |} = (Ok tt, w2) ->
  forall k, k ∈ ks ->
    is_Some (internal_snippets fs !! k) /\
    global_snippets (files w2) !! k = internal_snippets fs !! k.
Proof.
  induction ks as [|k0 ks IH]; intros fs tr w2 H k Hk.
  - now apply elem_of_nil in Hk.
  - cbn [for_of] in H. rewrite bind_run, copySnippetToGlobal_run in H.
    destruct (internal_snippets fs !! k0) as [text|] eqn:E; [ | discriminate].
    cbv beta iota in H.
    match type of H with
    | for_of _ _ ?w1 = _ =>
        pose proof (respects_for_of copying ks copySnippetToGlobal
                      copying_copySnippetToGlobal w1) as [K _]
    end.
    rewrite H in K. cbn [snd files] in K.
    destruct (decide (k ∈ ks)) as [Hin | Hnot].
    + exact (IH _ _ _ H k Hin).
    + apply elem_of_cons in Hk. destruct Hk as [-> | Hk]; [ | contradiction].
      rewrite E. split; [eauto | ].
      destruct K as [_ _ KS]. rewrite <- E.
      apply (KS k0); cbn [internal_snippets global_snippets
                            with_global_snippets with_global_roots].
      * rewrite E. eauto.
      * now rewrite lookup_insert_eq, E.
Qed.

(** After a successful [applyRoleSetup], every template the result lists
    has been copied under the role's name in the global templates, and
    every snippet it lists has been copied to the global snippets: each
    destination holds what its source holds. *)
Theorem applyRoleSetup_copies_in_place (h : Host) (w w' : World) (role : string)
    (r : RoleSetupResult.t) :
  applyRoleSetup h role w = (Ok r, w') ->
  (forall k, k ∈ RoleSetupResult.templates r ->
     is_Some (internal_templates (files w) !! k) /\
     global_templates (files w') !! (role, k) = internal_templates (files w) !! k) /\
  (forall k, k ∈ RoleSetupResult.snippets r ->
     is_Some (internal_snippets (files w) !! k) /\
     global_snippets (files w') !! k = internal_snippets (files w) !! k).
Proof.
  destruct w as [fs tr]. rewrite applyRoleSetup_run. cbv zeta. cbn [files].
  destruct (loaded_manifest fs) as [manifest|e]; [ | discriminate].
  destruct (manifest_get manifest role) as [d|]; [ | discriminate].
  unfold copy_sources.
  mrun ensureDir_run. mrun ensureDir_run. rewrite bind_run.
  destruct (for_of (RoleDefinition.templates d ?? []) _ _)
    as [[[]|e] [fs2 tr2]] eqn:HT; [ | discriminate].
  destruct (for_of (RoleDefinition.snippets d ?? []) _ _)
    as [[[]|e] [fs3 tr3]] eqn:HS; [ | discriminate].
  rewrite persist_run. intros [= <- <-].
  cbn [result_of RoleSetupResult.templates RoleSetupResult.snippets files
       global_templates global_snippets with_config_json].
  match type of HT with
  | for_of _ _ ?w1 = _ =>
      pose proof (respects_for_of copying (RoleDefinition.templates d ?? []) _
                    (copying_copyTemplateToGlobal role) w1) as CT
  end.
  rewrite HT in CT. destruct CT as [[[_ _ _ _ _ Hit1 His1] _ _] _].
  pose proof (respects_for_of copying (RoleDefinition.snippets d ?? []) _
                copying_copySnippetToGlobal {| files := fs2; trace := tr2 |}) as CS.
  rewrite HS in CS. destruct CS as [[_ KT _] _].
  cbn [snd files internal_templates internal_snippets with_global_roots] in *.
  split; intros k Hk.
  - destruct (copy_templates_in_place _ _ _ _ _ HT k Hk) as [Hi Hg].
    cbn [files internal_templates with_global_roots] in Hi, Hg.
    split; [exact Hi | ].
    rewrite <- Hit1. apply KT; rewrite Hit1; assumption.
  - destruct (copy_snippets_in_place _ _ _ _ HS k Hk) as [Hi Hg].
    cbn [files] in Hg. rewrite His1 in Hi, Hg. now split.
Qed.

Lemma applyRoleSetup_copies_in_place_witness :
  global_templates (files (snd (applyRoleSetup calm_host "devops" fresh_workspace)))
    !! ("devops", "microservice-basic/base") =
  shipped_templates !! "microservice-basic/base".
Proof.
  destruct (applyRoleSetup_copies_in_place calm_host fresh_workspace
              (snd (applyRoleSetup calm_host "devops" fresh_workspace))
              "devops" (result_of "devops" devops)) as [HT _].
  - vm_compute; reflexivity.
  - apply (HT "microservice-basic/base"). cbn. apply elem_of_cons. now left.
Defined.

(** ** Local environment setup: what it writes *)

#[global] Instance only_dot_env_preorder : PreOrder only_dot_env.
Proof.
  split.
  - intros f. now split.
  - intros a b c [] []. split; congruence.
Qed.

Lemma provision_only_dot_env h :
  respects (step writes_at_most_dot_env only_dot_env) (provision h).
Proof.
  unfold provision. cbn [for_of REQUIRED_TOOLS].
  unfold verify_tool, verifyDockerCompose, detectPackageManager,
    installDependencies, generateEnvFile, startDockerServices,
    isCommandAvailable, createSecret, randomBytes, execa, pathExists, logger.
  cbn [Tool.name Tool.args Tool.required Js.nullish].
  respects_go.
  all: apply respects_modify_files; [apply _ | intros f; now split].
Qed.

Lemma script_events_write_nothing h manager script t :
  forallb writes_at_most_dot_env (script_events h manager script t) = true.
Proof.
  unfold script_events. now destruct (script_exit0 h manager script t).
Qed.

Lemma health_events_write_nothing h f t :
  forallb writes_at_most_dot_env (health_events h f t) = true.
Proof.
  unfold health_events. cbv zeta. rewrite forallb_app. apply andb_true_iff. split.
  - unfold read_config_events. now destruct (config_json f).
  - generalize (t + List.length (read_config_events f)).
    induction (health_endpoints (config_json f ?? AppneuralConfig.empty))
      as [|u us IH]; intros n; cbn; [reflexivity | apply IH].
Qed.

(** [runLocalEnvironmentSetup] writes no file other than [.env]: the role
    manifest, the persisted configuration, [.env.example], the lockfiles
    and the templates and snippets, internal and global, are what they
    were when it returns or throws, and the only write its trace can
    hold is the write of [.env]. *)
Theorem runLocalEnvironmentSetup_writes_only_dot_env (h : Host) (w : World) :
  only_dot_env (files w) (files (snd (runLocalEnvironmentSetup h w))) /\
  exists new,
    trace (snd (runLocalEnvironmentSetup h w)) = (trace w ++ new)%list /\
    forallb writes_at_most_dot_env new = true.
Proof.
  rewrite runLocalEnvironmentSetup_run.
  destruct (provision_only_dot_env h w) as [HF (pre & Hpre & Hw)].
  destruct (provision h w) as [[[[manager envCreated] services]|e] [fs1 tr1]];
    cbn [snd files trace after_provision] in *.
  - split; [exact HF | ]. subst tr1. eexists.
    split; [rewrite <- app_assoc; reflexivity | ].
    now rewrite !forallb_app, Hw, !script_events_write_nothing,
      health_events_write_nothing.
  - split; [exact HF | ]. eauto.
Qed.

(** ** Local environment setup: tools *)

#[global] Instance any_files_preorder : PreOrder any_files.
Proof. split; [intros f; exact I | intros a b c _ _; exact I]. Qed.

Lemma verify_tool_run h tool fs tr :
  verify_tool h tool {| files := fs; trace := tr |} =
  let probe := EExeca (Tool.name tool) (Tool.args tool ?? ["--version"]) pipe in
  if execa_exit0 h (List.length tr) (Tool.name tool) (Tool.args tool ?? ["--version"])
  then (Ok tt, {| files := fs; trace := tr ++ [probe true] |})
  else if Tool.required tool
  then (Throw (AppneuralError (requires_message (Tool.name tool))),
        {| files := fs; trace := tr ++ [probe false] |})
  else (Ok tt,
        {| files := fs;
           trace := tr ++ [probe false;
                           ELogger warn ("APPNEURAL optional tool missing: "
                                         +:+ Tool.name tool)] |}).
Proof.
  unfold verify_tool. rewrite bind_run, isCommandAvailable_run. cbv beta iota zeta.
  destruct (execa_exit0 h (List.length tr) (Tool.name tool)
              (Tool.args tool ?? ["--version"])); cbn [negb andb].
  - reflexivity.
  - destruct (Tool.required tool); [reflexivity | ].
    unfold logger. rewrite emit_run, <- app_assoc. reflexivity.
Qed.

Lemma respects_probe_all P F `{!PreOrder F} h endpoints :
  (forall url o, P (EFetch url HEALTH_TIMEOUT_MS o) = true) ->
  respects (step P F) (probe_all h endpoints).
Proof.
  intros HP. induction endpoints as [|u us IH]; cbn [probe_all].
  - apply respects_ret. apply _.
  - unfold probe, fetch. respects_go; try exact IH.
    all: apply respects_emit; [apply _ | apply HP].
Qed.

Lemma after_tool_check_step h :
  respects (step no_required_probe_failure any_files) (after_tool_check h).
Proof.
  unfold after_tool_check.
  unfold verifyDockerCompose, detectPackageManager,
    installDependencies, generateEnvFile, startDockerServices,
    runScriptIfPresent, performHealthChecks, readAppneuralConfig,
    isCommandAvailable, createSecret, randomBytes, execa, pathExists, logger.
  cbn [Js.nullish].
  respects_go.
  all: try (apply respects_modify_files; [apply _ | intros f; exact I]).
  all: try (apply respects_probe_all; [apply _ | reflexivity]).
  all: apply respects_emit;
    [apply _ | match goal with |- context [execa_exit0 ?a ?b ?c ?d] =>
                 destruct (execa_exit0 a b c d) end; reflexivity].
Qed.

(** The outcome of the tool check: it passes with nothing but probes and
    warnings in the trace, none of them a failed probe of a required
    tool; or it stops at the failed probe of a required tool and throws
    for that tool.  No file changes either way. *)
Lemma tool_check_run h fs tr :
  (exists new,
     for_of REQUIRED_TOOLS (verify_tool h) {| files := fs; trace := tr |} =
       (Ok tt, {| files := fs; trace := tr ++ new |}) /\
     forallb is_tool_check new = true /\
     forallb no_required_probe_failure new = true) \/
  (exists tool before,
     for_of REQUIRED_TOOLS (verify_tool h) {| files := fs; trace := tr |} =
       (Throw (AppneuralError (requires_message tool)),
        {| files := fs;
           trace := tr ++ before ++ [EExeca tool ["--version"] pipe false] |}) /\
     tool ∈ ["node"; "npm"; "docker"] /\
     forallb is_tool_check before = true /\
     forallb no_required_probe_failure before = true).
Proof.
  cbn [for_of REQUIRED_TOOLS].
  repeat (rewrite bind_run, verify_tool_run; cbv zeta;
          cbn [Tool.name Tool.args Tool.required Js.nullish];
          match goal with
          | |- context [execa_exit0 h ?t ?c ?a] =>
              destruct (execa_exit0 h t c a)
          end; cbv beta iota).
  all: rewrite ?ret_run, <- ?app_assoc; cbn [app].
  all: first
    [ left; eexists; split; [reflexivity | split; reflexivity]
    | right;
      match goal with
      | |- context [(Throw (AppneuralError (requires_message ?t)),
                     {| files := _; trace := _ ++ ?l |})] =>
          exists t, (removelast l)
      end;
      cbn [removelast app];
      split; [reflexivity | split; [set_solver | split; reflexivity]] ].
Qed.
